(** * Voter duplicate detection: the scan engine of [app.py]

    A shallow embedding of the duplicate-detection core of the Streamlit
    application ([calculate_name_similarity], [calculate_address_similarity],
    [calculate_dob_difference] and [detect_duplicates]) and the properties
    of it that the specification states.

    Conventions of the embedding.
    - Python floats are idealised as exact rationals ([Q]); integers are [Z];
      loop positions are [nat].
    - A row of the DataFrame is a finite map from column labels to cells; a
      cell is either the pandas missing marker or the text the code obtains
      from it with [str].
    - The [fuzzywuzzy] measures, [pd.to_datetime] and the [.1f] float
      formatting belong to external libraries; they are the fields of the
      class [External] and every statement holds for all their instances.
    - [detect_duplicates] threads its two local mutable objects ([duplicates]
      and [compared]) through a state-and-exception monad. The state carries
      one more, ghost, component: the [trace] of metric invocations and of
      skipped pairs, which the source does not have and which does not
      influence the computation. *)

From Stdlib Require Import QArith Lqa ZArith Ascii String.
From stdpp Require Import gmap strings list pretty sorting.

Local Open Scope Z_scope.

(** ** Cells, rows and tables *)

Inductive cell :=
| NaN
| Str (s : string).

#[global] Instance cell_eq_dec : EqDecision cell.
Proof. solve_decision. Defined.

(** [pd.isna] *)
Definition isna (c : cell) : bool :=
  match c with NaN => true | Str _ => false end.

(** [str] *)
Definition str (c : cell) : string :=
  match c with NaN => "nan" | Str s => s end.

Abbreviation row := (gmap string cell).
Abbreviation table := (list row).

(** ** String normalisation: [.strip().upper()], on ASCII text.
    Bytes outside ASCII are left as they are. *)

Definition is_space (a : ascii) : bool :=
  let n := nat_of_ascii a in
  ((9 <=? n)%nat && (n <=? 13)%nat) || ((28 <=? n)%nat && (n <=? 32)%nat).

Fixpoint lstrip (s : string) : string :=
  match s with
  | EmptyString => EmptyString
  | String a s' => if is_space a then lstrip s' else s
  end.

Fixpoint rstrip (s : string) : string :=
  match s with
  | EmptyString => EmptyString
  | String a s' =>
      match rstrip s' with
      | EmptyString => if is_space a then EmptyString else String a EmptyString
      | t => String a t
      end
  end.

Definition strip (s : string) : string := rstrip (lstrip s).

Definition upper_ascii (a : ascii) : ascii :=
  let n := nat_of_ascii a in
  if ((97 <=? n)%nat && (n <=? 122)%nat) then ascii_of_nat (n - 32) else a.

Fixpoint upper (s : string) : string :=
  match s with
  | EmptyString => EmptyString
  | String a s' => String (upper_ascii a) (upper s')
  end.

(** [' | '.join(reasons)] *)
Fixpoint join (sep : string) (l : list string) : string :=
  match l with
  | [] => EmptyString
  | [s] => s
  | s :: l' => (s ++ sep ++ join sep l')%string
  end.

(** ** The external libraries *)

Class External := {
  (** [fuzz.ratio], [fuzz.partial_ratio], [fuzz.token_sort_ratio] and
      [fuzz.token_set_ratio]: integer scores *)
  fuzz_ratio : string → string → Z;
  fuzz_partial_ratio : string → string → Z;
  fuzz_token_sort_ratio : string → string → Z;
  fuzz_token_set_ratio : string → string → Z;
  (** [pd.to_datetime]: the parsed timestamp in nanoseconds since the epoch,
      or [None] when pandas raises *)
  to_datetime : string → option Z;
  (** the format specification [:.1f] *)
  format_1f : Q → string
}.

(** Comparisons of rationals as booleans. *)
Definition Qltb (x y : Q) : bool := negb (Qle_bool y x).
Definition Qgeb (x y : Q) : bool := Qle_bool y x.

(** [Timedelta.days]: whole days of a difference of timestamps, rounded
    towards minus infinity. *)
Definition ns_per_day : Z := 86400000000000.
Definition days (delta : Z) : Z := delta / ns_per_day.

Section Metrics.
Context {lib : External}.

Definition calculate_name_similarity (name1 name2 : cell) : Q :=
  if isna name1 || isna name2 then 0%Q
  else
    let name1 := upper (strip (str name1)) in
    let name2 := upper (strip (str name2)) in
    let ratio := fuzz_ratio name1 name2 in
    let partial_ratio := fuzz_partial_ratio name1 name2 in
    let token_sort := fuzz_token_sort_ratio name1 name2 in
    let token_set := fuzz_token_set_ratio name1 name2 in
    (inject_Z ratio * 0.3 + inject_Z partial_ratio * 0.2
     + inject_Z token_sort * 0.25 + inject_Z token_set * 0.25)%Q.

Definition calculate_address_similarity (addr1 addr2 : cell) : Z :=
  if isna addr1 || isna addr2 then 0
  else
    let addr1 := upper (strip (str addr1)) in
    let addr2 := upper (strip (str addr2)) in
    fuzz_token_set_ratio addr1 addr2.

(** The bare [except] turns every exception of the parser into the
    sentinel. *)
Definition calculate_dob_difference (dob1 dob2 : cell) : Z :=
  if isna dob1 || isna dob2 then 999999
  else
    match to_datetime (str dob1), to_datetime (str dob2) with
    | Some date1, Some date2 => Z.abs (days (date1 - date2))
    | _, _ => 999999
    end.

End Metrics.

(** ** The scan: state, exceptions and the ghost trace *)

(** One entry of the list [duplicates]: the dict built for a flagged pair. *)
Record duplicate := Duplicate {
  Record_1_Index : nat;
  Record_2_Index : nat;
  Voter_ID_1 : cell;
  Voter_ID_2 : cell;
  Name_1 : cell;
  Name_2 : cell;
  DOB_1 : cell;
  DOB_2 : cell;
  Address_1 : cell;
  Address_2 : cell;
  Name_Similarity : Q;
  DOB_Difference_Days : Z;
  Address_Similarity : Z;
  Confidence_Score : Q;
  Detection_Reasons : string
}.

Inductive exn :=
| KeyError (key : string)
| IndexError.

Inductive result (A : Type) :=
| Ok (a : A)
| Raise (e : exn).
Arguments Ok {A} a.
Arguments Raise {A} e.

(** Ghost events: which metric was invoked for which pair of positions, and
    which pairs took the [continue] under [if pair in compared]. *)
Inductive event :=
| Skipped (i j : nat)
| NameSimilarityCall (i j : nat)
| DobDifferenceCall (i j : nat)
| AddressSimilarityCall (i j : nat).

#[global] Instance event_eq_dec : EqDecision event.
Proof. solve_decision. Defined.

Record scan_state := ScanState {
  duplicates : list duplicate;
  compared : gset (nat * nat);
  trace : list event
}.

Definition M (A : Type) : Type := scan_state → scan_state * result A.

Definition ret {A} (a : A) : M A := λ st, (st, Ok a).

Definition bind {A B} (m : M A) (k : A → M B) : M B :=
  λ st, match m st with
        | (st', Ok a) => k a st'
        | (st', Raise e) => (st', Raise e)
        end.

Definition raise {A} (e : exn) : M A := λ st, (st, Raise e).

Notation "'let*' x ':=' m 'in' k" := (bind m (λ x, k))
  (at level 10, x pattern, m at level 200, k at level 200).

Definition log (e : event) : M unit :=
  λ st, (ScanState (duplicates st) (compared st) (trace st ++ [e]), Ok tt).

(** [pair in compared] and [compared.add(pair)] *)
Definition in_compared (pair : nat * nat) : M bool :=
  λ st, (st, Ok (bool_decide (pair ∈ compared st))).

Definition compared_add (pair : nat * nat) : M unit :=
  λ st, (ScanState (duplicates st) ({[pair]} ∪ compared st) (trace st), Ok tt).

(** [duplicates.append(d)] *)
Definition duplicates_append (d : duplicate) : M unit :=
  λ st, (ScanState (duplicates st ++ [d]) (compared st) (trace st), Ok tt).

Definition get_duplicates : M (list duplicate) :=
  λ st, (st, Ok (duplicates st)).

(** [df.iloc[i]] and [record['column']] *)
Definition iloc (df : table) (i : nat) : M row :=
  match df !! i with
  | Some r => ret r
  | None => raise IndexError
  end.

Definition getitem (record : row) (column : string) : M cell :=
  match record !! column with
  | Some c => ret c
  | None => raise (KeyError column)
  end.

(** [for x in l: body(x)] *)
Fixpoint for_each {A} (l : list A) (body : A → M unit) : M unit :=
  match l with
  | [] => ret tt
  | x :: l' => let* _ := body x in for_each l' body
  end.

(** [range(a, b)] *)
Definition range (a b : nat) : list nat := seq a (b - a).

(** [tuple(sorted([i, j]))] *)
Definition sorted_pair (i j : nat) : nat * nat :=
  if (j <? i)%nat then (j, i) else (i, j).

(** ** [detect_duplicates] *)

Section Scan.
Context {lib : External}.
Variable df : table.
Variables name_threshold dob_tolerance_days : Z.
Variable check_addr : bool.
Variable addr_threshold : Z.

(** The three reason templates. *)
Definition high_name_reason (name_sim : Q) : string :=
  "High name similarity (" ++ format_1f name_sim ++ "%)".
Definition name_reason (name_sim : Q) : string :=
  "Name similarity (" ++ format_1f name_sim ++ "%)".
Definition dob_reason (dob_diff : Z) : string :=
  "DOB difference (" ++ pretty dob_diff ++ " days)".
Definition address_reason (addr_sim : Z) : string :=
  "Address similarity (" ++ format_1f (inject_Z addr_sim) ++ "%)".

(** The [if]/[elif] chain over the locals [is_duplicate], [confidence]
    and [reasons], which start as [False], [0] and [[]]. *)
Definition classify (name_sim : Q) (dob_diff addr_sim : Z)
  : bool * Q * list string :=
  if Qgeb name_sim 95 then
    (true, name_sim, [high_name_reason name_sim])
  else if Qgeb name_sim (inject_Z name_threshold)
          && (dob_diff <=? dob_tolerance_days) then
    (true,
     ((name_sim + (100 - inject_Z dob_diff / 365 * 100)) / 2)%Q,
     [name_reason name_sim; dob_reason dob_diff])
  else if Qgeb name_sim (inject_Z name_threshold)
          && check_addr && (addr_sim >=? addr_threshold) then
    (true,
     ((name_sim + inject_Z addr_sim) / 2)%Q,
     [name_reason name_sim; address_reason addr_sim])
  else (false, 0%Q, []).

(** The inner loop's body from [record1 = df.iloc[i]] to its end. [ret tt]
    before the end is a [continue]. The progress bar and the status text
    of the outer loop are not modelled. *)
Definition compare_records (i j : nat) : M unit :=
  let* record1 := iloc df i in
  let* record2 := iloc df j in
  let* name1 := getitem record1 "Full_Name" in
  let* name2 := getitem record2 "Full_Name" in
  let* _ := log (NameSimilarityCall i j) in
  let name_sim := calculate_name_similarity name1 name2 in
  if Qltb name_sim (inject_Z name_threshold) then ret tt
  else
    let* dob1 := getitem record1 "Date_of_Birth" in
    let* dob2 := getitem record2 "Date_of_Birth" in
    let* _ := log (DobDifferenceCall i j) in
    let dob_diff := calculate_dob_difference dob1 dob2 in
    let* addr_sim :=
      (if check_addr then
         let* addr1 := getitem record1 "Address" in
         let* addr2 := getitem record2 "Address" in
         let* _ := log (AddressSimilarityCall i j) in
         ret (calculate_address_similarity addr1 addr2)
       else ret 0) in
    let '(is_duplicate, confidence, reasons) :=
      classify name_sim dob_diff addr_sim in
    if is_duplicate then
      let* voter_id_1 := getitem record1 "Voter_ID" in
      let* voter_id_2 := getitem record2 "Voter_ID" in
      let* name_1 := getitem record1 "Full_Name" in
      let* name_2 := getitem record2 "Full_Name" in
      let* dob_1 := getitem record1 "Date_of_Birth" in
      let* dob_2 := getitem record2 "Date_of_Birth" in
      let* address_1 := getitem record1 "Address" in
      let* address_2 := getitem record2 "Address" in
      duplicates_append
        {| Record_1_Index := i;
           Record_2_Index := j;
           Voter_ID_1 := voter_id_1;
           Voter_ID_2 := voter_id_2;
           Name_1 := name_1;
           Name_2 := name_2;
           DOB_1 := dob_1;
           DOB_2 := dob_2;
           Address_1 := address_1;
           Address_2 := address_2;
           Name_Similarity := name_sim;
           DOB_Difference_Days := dob_diff;
           Address_Similarity := addr_sim;
           Confidence_Score := confidence;
           Detection_Reasons := join " | " reasons |}
    else ret tt.

(** The whole body of the inner loop: the test on [compared], then the
    comparison. *)
Definition loop_body (i j : nat) : M unit :=
  let pair := sorted_pair i j in
  let* seen := in_compared pair in
  if seen then log (Skipped i j)
  else
    let* _ := compared_add pair in
    compare_records i j.

Definition scan : M (list duplicate) :=
  let n := length df in
  let* _ :=
    for_each (range 0 n) (λ i,
      for_each (range (i + 1) n) (λ j, loop_body i j)) in
  get_duplicates.

(** The scan without the set [compared] and without the test on it. *)
Definition scan_without_set : M (list duplicate) :=
  let n := length df in
  let* _ :=
    for_each (range 0 n) (λ i,
      for_each (range (i + 1) n) (λ j, compare_records i j)) in
  get_duplicates.

End Scan.

(** The state in which the locals [duplicates = []] and [compared = set()]
    have just been created. *)
Definition initial_state : scan_state := ScanState [] ∅ [].

(** [detect_duplicates] returns the final state (for the ghost trace) next
    to what the Python function returns or raises. *)
Definition detect_duplicates {lib : External} (df : table)
    (name_threshold dob_tolerance_days : Z) (check_addr : bool)
    (addr_threshold : Z) : scan_state * result (list duplicate) :=
  scan df name_threshold dob_tolerance_days check_addr addr_threshold
    initial_state.

Definition detect_duplicates_without_set {lib : External} (df : table)
    (name_threshold dob_tolerance_days : Z) (check_addr : bool)
    (addr_threshold : Z) : scan_state * result (list duplicate) :=
  scan_without_set df name_threshold dob_tolerance_days check_addr
    addr_threshold initial_state.


(** The ranges of the sidebar widgets. *)
Definition settings_in_range (name_threshold dob_tolerance_days : Z)
    (addr_threshold : Z) : Prop :=
  50 ≤ name_threshold ≤ 100 ∧ 0 ≤ dob_tolerance_days ≤ 365
  ∧ 50 ≤ addr_threshold ≤ 100.

(** ** Descriptions used in the proofs *)

(** The pairs of positions in the order in which the two loops visit them. *)
Definition pairs (n : nat) : list (nat * nat) :=
  flat_map (λ i, map (λ j, (i, j)) (range (i + 1) n)) (range 0 n).

(** [extend st ds evs]: [st] after [ds] was appended to [duplicates] and
    [evs] to the trace. *)
Definition extend (st : scan_state) (ds : list duplicate)
    (evs : list event) : scan_state :=
  ScanState (duplicates st ++ ds) (compared st) (trace st ++ evs).

Definition with_compared (c : gset (nat * nat)) (st : scan_state)
    : scan_state :=
  ScanState (duplicates st) c (trace st).

(** A computation is framed when it only appends to [duplicates] and to the
    trace, and what it appends and returns does not depend on the state. *)
Definition framed {A} (m : M A) : Prop :=
  ∀ st, m st = (extend st (duplicates (m initial_state).1)
                          (trace (m initial_state).1),
                (m initial_state).2).

Definition required_columns : list string :=
  ["Voter_ID"; "Full_Name"; "Date_of_Birth"; "Address"].

Definition has_columns (r : row) : Prop :=
  ∀ c, c ∈ required_columns → is_Some (r !! c).

(** The input table has the four required columns. *)
Definition well_formed (df : table) : Prop := Forall has_columns df.


Definition column (r : row) (c : string) : cell := default NaN (r !! c).


Section Description.
Context {lib : External}.
Variable df : table.
Variables name_threshold dob_tolerance_days : Z.
Variable check_addr : bool.
Variable addr_threshold : Z.

(** What one execution of [compare_records] appends and returns. *)
Definition outcome (p : nat * nat)
  : list duplicate * list event * result unit :=
  let r := compare_records df name_threshold dob_tolerance_days check_addr
             addr_threshold p.1 p.2 initial_state in
  (duplicates r.1, trace r.1, r.2).

(** What the scan of a list of pairs appends and returns: it stops at
    the first exception. *)
Fixpoint outcomes (l : list (nat * nat))
  : list duplicate * list event * result unit :=
  match l with
  | [] => ([], [], Ok tt)
  | p :: l' =>
      match outcome p with
      | (ds, evs, Raise e) => (ds, evs, Raise e)
      | (ds, evs, Ok _) =>
          let '(ds', evs', r) := outcomes l' in (ds ++ ds', evs ++ evs', r)
      end
  end.

(** The three metrics of a pair of rows, as the scan obtains them. *)
Definition name_similarity_of (r1 r2 : row) : Q :=
  calculate_name_similarity (column r1 "Full_Name") (column r2 "Full_Name").

Definition dob_difference_of (r1 r2 : row) : Z :=
  calculate_dob_difference (column r1 "Date_of_Birth")
    (column r2 "Date_of_Birth").

Definition address_similarity_of (r1 r2 : row) : Z :=
  if check_addr then
    calculate_address_similarity (column r1 "Address") (column r2 "Address")
  else 0.

(** The entry that the scan appends for the rows [r1] and [r2] at the
    positions [i] and [j], if it appends one. *)
Definition entry (i j : nat) (r1 r2 : row) : option duplicate :=
  let name_sim := name_similarity_of r1 r2 in
  if Qltb name_sim (inject_Z name_threshold) then None
  else
    let dob_diff := dob_difference_of r1 r2 in
    let addr_sim := address_similarity_of r1 r2 in
    let '(is_duplicate, confidence, reasons) :=
      classify name_threshold dob_tolerance_days check_addr addr_threshold
        name_sim dob_diff addr_sim in
    if is_duplicate then
      Some {| Record_1_Index := i;
              Record_2_Index := j;
              Voter_ID_1 := column r1 "Voter_ID";
              Voter_ID_2 := column r2 "Voter_ID";
              Name_1 := column r1 "Full_Name";
              Name_2 := column r2 "Full_Name";
              DOB_1 := column r1 "Date_of_Birth";
              DOB_2 := column r2 "Date_of_Birth";
              Address_1 := column r1 "Address";
              Address_2 := column r2 "Address";
              Name_Similarity := name_sim;
              DOB_Difference_Days := dob_diff;
              Address_Similarity := addr_sim;
              Confidence_Score := confidence;
              Detection_Reasons := join " | " reasons |}
    else None.

Definition entry_at (p : nat * nat) : option duplicate :=
  match df !! p.1, df !! p.2 with
  | Some r1, Some r2 => entry p.1 p.2 r1 r2
  | _, _ => None
  end.

(** The metric invocations of one comparison of [r1] and [r2]. *)
Definition events (i j : nat) (r1 r2 : row) : list event :=
  NameSimilarityCall i j ::
  (if Qltb (name_similarity_of r1 r2) (inject_Z name_threshold) then []
   else DobDifferenceCall i j ::
        (if check_addr then [AddressSimilarityCall i j] else [])).

Definition events_at (p : nat * nat) : list event :=
  match df !! p.1, df !! p.2 with
  | Some r1, Some r2 => events p.1 p.2 r1 r2
  | _, _ => []
  end.

End Description.

Arguments outcome : simpl never.

(** An entry carries the reasons of the first, second or third rule of
    [classify]. *)
Definition flagged_by_high_name {lib : External} (d : duplicate) : Prop :=
  Detection_Reasons d = high_name_reason (Name_Similarity d).

Definition flagged_by_dob {lib : External} (d : duplicate) : Prop :=
  Detection_Reasons d =
  join " | " [name_reason (Name_Similarity d);
              dob_reason (DOB_Difference_Days d)].

Definition flagged_by_address {lib : External} (d : duplicate) : Prop :=
  Detection_Reasons d =
  join " | " [name_reason (Name_Similarity d);
              address_reason (Address_Similarity d)].

#[global] Instance flagged_by_address_dec {lib : External} (d : duplicate) :
  Decision (flagged_by_address d).
Proof. unfold flagged_by_address. apply _. Defined.


(** The positions of an entry. *)
Definition positions (d : duplicate) : nat * nat :=
  (Record_1_Index d, Record_2_Index d).

Definition symmetric_measure (f : string → string → Z) : Prop :=
  ∀ a b, f a b = f b a.

(** A cell that, when it parses, parses to a timestamp without time of
    day. *)
Definition whole_day {lib : External} (c : cell) : Prop :=
  ∀ t, to_datetime (str c) = Some t → (ns_per_day | t).

(** ** Concrete tables and a concrete instance of the external libraries *)

Module Examples.

(** The four measures on the strings of the examples: equal strings score
    100 with every measure; "RAVI KUMAR" against "RAVI KUMARR" scores 95,
    100, 95 and 95; "RAVI" against "RAVINDRA" scores 67, 100, 67 and 67;
    strings without a common character score 0. No other pair of strings
    is used. *)
Definition listed (x y a b : string) : bool :=
  (String.eqb a x && String.eqb b y) || (String.eqb a y && String.eqb b x).

Definition score (close near : Z) (a b : string) : Z :=
  if String.eqb a b then 100
  else if listed "RAVI KUMAR" "RAVI KUMARR" a b then close
  else if listed "RAVI" "RAVINDRA" a b then near
  else 0.

(** The timestamps, in nanoseconds since 1970-01-01, of the date strings of
    the examples; every other string is taken as unparsable. *)
Definition parse (s : string) : option Z :=
  if String.eqb s "1990-05-17" then Some 642902400000000000
  else if String.eqb s "1990-05-17 12:00:00" then Some 642945600000000000
  else if String.eqb s "1990-05-18" then Some 642988800000000000
  else if String.eqb s "1990-06-01" then Some 644198400000000000
  else None.

(** One decimal, ties to even, on the exact rational. *)
Definition format1 (q : Q) : string :=
  let n := Qnum q * 10 in
  let d := Z.pos (Qden q) in
  let f := n / d in
  let r := n mod d in
  let t := if 2 * r <? d then f
           else if d <? 2 * r then f + 1
           else if Z.even f then f else f + 1 in
  let a := Z.abs t in
  let sign : string := if t <? 0 then "-" else EmptyString in
  (sign ++ pretty (a / 10) ++ "." ++ pretty (a mod 10))%string.

Definition lib : External :=
  {| fuzz_ratio := score 95 67;
     fuzz_partial_ratio := score 100 100;
     fuzz_token_sort_ratio := score 95 67;
     fuzz_token_set_ratio := score 95 67;
     to_datetime := parse;
     format_1f := format1 |}.

Definition voter (id name dob address : cell) : row :=
  {[ "Voter_ID" := id; "Full_Name" := name; "Date_of_Birth" := dob;
     "Address" := address ]}.


Definition ravi_kumar : row :=
  voter (Str "ABC1234567") (Str "Ravi Kumar") (Str "1990-05-17")
    (Str "12 MG ROAD").

Definition ravi_kumarr : row :=
  voter (Str "XYZ7654321") (Str "Ravi Kumarr") (Str "1990-06-01")
    (Str "12 MG ROAD").

(** The name of [ravi_kumar], no date of birth and no address. *)
Definition ravi_kumar_only : row :=
  voter (Str "XYZ7654321") (Str " RAVI KUMAR") NaN NaN.

Definition ravi : row :=
  voter (Str "ABC1234567") (Str "Ravi") (Str "1990-05-17")
    (Str "12 MG ROAD").

Definition ravindra : row :=
  voter (Str "XYZ7654321") (Str "Ravindra") (Str "1990-05-18")
    (Str "12 MG ROAD").

Definition ravindra_june : row :=
  voter (Str "XYZ7654321") (Str "Ravindra") (Str "1990-06-01")
    (Str "12 MG ROAD").

Definition two_spellings : table := [ravi_kumar; ravi_kumarr].

Definition same_name : table := [ravi_kumar; ravi_kumar_only].

Definition close_dob : table := [ravi; ravindra].

Definition far_dob : table := [ravi; ravindra_june].



End Examples.

(** ** The summary and the filter of the main script *)

#[global] Instance cell_countable : Countable cell.
Proof.
  refine (inj_countable'
            (λ c, match c with NaN => None | Str s => Some s end)
            (λ o, match o with None => NaN | Some s => Str s end) _).
  by intros [].
Defined.

(** [len(set(duplicates_df['Voter_ID_1'].tolist()
             + duplicates_df['Voter_ID_2'].tolist()))] *)
Definition unique_duplicates (duplicates_df : list duplicate) : nat :=
  size (list_to_set ((Voter_ID_1 <$> duplicates_df)
                     ++ (Voter_ID_2 <$> duplicates_df)) : gset cell).

(** [Series.mean()] of a column that has at least one value. *)
Definition mean (l : list Q) : Q :=
  (foldr Qplus 0 l / inject_Z (Z.of_nat (length l)))%Q.

(** What the branch on [len(duplicates_df) > 0] shows: the four metrics,
    or the message that nothing was found; the division by [len(df)]
    raises when the table is empty. *)
Inductive report :=
| NoDuplicates
| Statistics (total_records potential_duplicates : nat)
    (duplicate_percentage avg_confidence : Q)
| ZeroDivisionError.

Definition report_of (df : table) (duplicates_df : list duplicate)
    : report :=
  if (0 <? length duplicates_df)%nat then
    let unique_duplicates := unique_duplicates duplicates_df in
    if (length df =? 0)%nat then ZeroDivisionError
    else
      let duplicate_percentage :=
        (inject_Z (Z.of_nat unique_duplicates)
         / inject_Z (Z.of_nat (length df)) * 100)%Q in
      let avg_confidence := mean (Confidence_Score <$> duplicates_df) in
      Statistics (length df) unique_duplicates duplicate_percentage
        avg_confidence
  else NoDuplicates.


(** The four measures give scores from 0 to 100. *)
Definition scores_in_range {lib : External} : Prop :=
  ∀ f, f ∈ [fuzz_ratio; fuzz_partial_ratio; fuzz_token_sort_ratio;
            fuzz_token_set_ratio] →
       ∀ a b, 0 ≤ f a b ≤ 100.

(** The lexicographic order of pairs of positions. *)
Definition pair_lt (p q : nat * nat) : Prop :=
  (p.1 < q.1)%nat ∨ (p.1 = q.1 ∧ (p.2 < q.2)%nat).

(** ** The generator of duplicates with typos ([generate_data.py])

    The records of the generator are dicts from column names to strings.
    What the functions draw from [random] and from [Faker] is an argument,
    [draws]; [strptime], the addition of days and [strftime] belong to the
    [datetime] library and are the fields of the class [Calendar]. *)

(** [.lower()], [.title()] and [.split()] on ASCII text. *)
Definition lower_ascii (a : ascii) : ascii :=
  let n := nat_of_ascii a in
  if ((65 <=? n)%nat && (n <=? 90)%nat) then ascii_of_nat (n + 32) else a.

Fixpoint lower (s : string) : string :=
  match s with
  | EmptyString => EmptyString
  | String a s' => String (lower_ascii a) (lower s')
  end.

Definition is_cased (a : ascii) : bool :=
  let n := nat_of_ascii a in
  ((65 <=? n)%nat && (n <=? 90)%nat) || ((97 <=? n)%nat && (n <=? 122)%nat).

(** [previous_is_cased] tells whether the character before is a letter. *)
Fixpoint title_from (previous_is_cased : bool) (s : string) : string :=
  match s with
  | EmptyString => EmptyString
  | String a s' =>
      if is_cased a then
        String (if previous_is_cased then lower_ascii a else upper_ascii a)
          (title_from true s')
      else String a (title_from false s')
  end.

Definition title (s : string) : string := title_from false s.

Definition starts_word (s : string) : bool :=
  match s with
  | EmptyString => false
  | String a _ => negb (is_space a)
  end.

(** The words of [s]: the maximal runs of characters that are not
    white space. *)
Fixpoint split (s : string) : list string :=
  match s with
  | EmptyString => []
  | String a s' =>
      if is_space a then split s'
      else if starts_word s' then
        match split s' with
        | w :: ws => String a w :: ws
        | [] => [String a EmptyString]
        end
      else String a EmptyString :: split s'
  end.

(** [old in s] and [s.replace(old, new, 1)] *)
Fixpoint contains (old s : string) : bool :=
  String.prefix old s
  || match s with
     | EmptyString => false
     | String _ s' => contains old s'
     end.

Fixpoint replace_first (old new s : string) : string :=
  if String.prefix old s then
    (new ++ String.substring (String.length old)
              (String.length s - String.length old) s)%string
  else
    match s with
    | EmptyString => EmptyString
    | String a s' => String a (replace_first old new s')
    end.

Class Calendar := {
  (** [datetime.strptime(s, '%Y-%m-%d')] as a day number, [None] when it
      raises *)
  strptime : string → option Z;
  (** the day number plus a number of days, [None] when the result is out
      of the range of dates *)
  add_days : Z → Z → option Z;
  (** [.strftime('%Y-%m-%d')] *)
  strftime : Z → string
}.

Record draws := Draws {
  (** [random.randint(a, b)] *)
  randint : nat → nat → nat;
  (** [random.choice(string.ascii_letters)] *)
  ascii_letter : ascii;
  (** [generate_voter_id()] *)
  voter_id : string;
  (** [fake.name()] *)
  fake_name : string;
  (** [random.choice([1, -1, 30, -30])] *)
  day_shift : Z
}.

(** [random.randint(a, b)] returns a number from a to b. *)
Definition randint_in_range (rnd : draws) : Prop :=
  ∀ a b, (a ≤ b)%nat → (a ≤ randint rnd a b ≤ b)%nat.

Inductive generator_error :=
| GeneratorKeyError (key : string)
| GeneratorIndexError
| ValueError
| OverflowError.

Inductive generated (A : Type) :=
| Returns (a : A)
| Fails (e : generator_error).
Arguments Returns {A} a.
Arguments Fails {A} e.

(** [text_list[pos]] *)
Definition item (text_list : list ascii) (pos : nat) : generated ascii :=
  match text_list !! pos with
  | Some a => Returns a
  | None => Fails GeneratorIndexError
  end.

Definition create_typo (rnd : draws) (text typo_type : string)
    : generated string :=
  if (String.length text <? 3)%nat then Returns text
  else
    let text_list := list_ascii_of_string text in
    let pos := randint rnd 1 (length text_list - 2) in
    if String.eqb typo_type "char" then
      match item text_list pos with
      | Returns _ =>
          Returns (string_of_list_ascii
                     (<[pos := ascii_letter rnd]> text_list))
      | Fails e => Fails e
      end
    else if String.eqb typo_type "swap" then
      match item text_list (pos + 1), item text_list pos with
      | Returns b, Returns a =>
          Returns (string_of_list_ascii
                     (<[(pos + 1)%nat := a]> (<[pos := b]> text_list)))
      | Fails e, _ | _, Fails e => Fails e
      end
    else if String.eqb typo_type "missing" then
      match item text_list pos with
      | Returns _ => Returns (string_of_list_ascii (delete pos text_list))
      | Fails e => Fails e
      end
    else if String.eqb typo_type "extra" then
      match item text_list pos with
      | Returns a =>
          Returns (string_of_list_ascii
                     (take pos text_list ++ a :: drop pos text_list))
      | Fails e => Fails e
      end
    else Returns text.

(** [voter_record['...']] *)
Definition field (voter_record : gmap string string) (key : string)
    : generated string :=
  match voter_record !! key with
  | Some v => Returns v
  | None => Fails (GeneratorKeyError key)
  end.

(** The dict [replacements], in the order of its items. *)
Definition replacements : list (string * string) :=
  [("ph", "f"); ("k", "c"); ("sh", "s"); ("v", "w")].

(** The loop over [replacements.items()] with its [break]. *)
Fixpoint replace_phonetic (items : list (string * string)) (name : string)
    : string :=
  match items with
  | [] => name
  | (old, new) :: items' =>
      if contains old name then replace_first old new name
      else replace_phonetic items' name
  end.

(** [name_parts[0] = name_parts[0][0] + '.'] when there are two parts or
    more. *)
Definition abbreviate (name_parts : list string) : generated (list string) :=
  match name_parts with
  | first :: second :: rest =>
      match first with
      | String a _ => Returns (String a "." :: second :: rest)
      | EmptyString => Fails GeneratorIndexError
      end
  | _ => Returns name_parts
  end.

Definition create_duplicate_variations {cal : Calendar} (rnd : draws)
    (voter_record : gmap string string) (duplicate_type : string)
    : generated (gmap string string) :=
  let duplicate := voter_record in
  if String.eqb duplicate_type "exact" then
    Returns (<["Voter_ID" := voter_id rnd]> duplicate)
  else if String.eqb duplicate_type "typo_name" then
    let duplicate := <["Voter_ID" := voter_id rnd]> duplicate in
    match field voter_record "Full_Name" with
    | Returns name =>
        match create_typo rnd name "char" with
        | Returns name' => Returns (<["Full_Name" := name']> duplicate)
        | Fails e => Fails e
        end
    | Fails e => Fails e
    end
  else if String.eqb duplicate_type "missing_char" then
    let duplicate := <["Voter_ID" := voter_id rnd]> duplicate in
    match field voter_record "Full_Name" with
    | Returns name =>
        match create_typo rnd name "missing" with
        | Returns name' => Returns (<["Full_Name" := name']> duplicate)
        | Fails e => Fails e
        end
    | Fails e => Fails e
    end
  else if String.eqb duplicate_type "extra_space" then
    let duplicate := <["Voter_ID" := voter_id rnd]> duplicate in
    match field voter_record "Full_Name" with
    | Returns name =>
        let name_parts := split name in
        Returns (<["Full_Name" := join "  " name_parts]> duplicate)
    | Fails e => Fails e
    end
  else if String.eqb duplicate_type "case_change" then
    let duplicate := <["Voter_ID" := voter_id rnd]> duplicate in
    match field voter_record "Full_Name" with
    | Returns name => Returns (<["Full_Name" := lower name]> duplicate)
    | Fails e => Fails e
    end
  else if String.eqb duplicate_type "address_typo" then
    let duplicate := <["Voter_ID" := voter_id rnd]> duplicate in
    match field voter_record "Address" with
    | Returns address =>
        match create_typo rnd address "char" with
        | Returns address' => Returns (<["Address" := address']> duplicate)
        | Fails e => Fails e
        end
    | Fails e => Fails e
    end
  else if String.eqb duplicate_type "abbreviated" then
    let duplicate := <["Voter_ID" := voter_id rnd]> duplicate in
    match field voter_record "Full_Name" with
    | Returns name =>
        match abbreviate (split name) with
        | Returns name_parts =>
            Returns (<["Full_Name" := join " " name_parts]> duplicate)
        | Fails e => Fails e
        end
    | Fails e => Fails e
    end
  else if String.eqb duplicate_type "father_name_diff" then
    let duplicate := <["Voter_ID" := voter_id rnd]> duplicate in
    Returns (<["Father_Mother_Name" := fake_name rnd]> duplicate)
  else if String.eqb duplicate_type "dob_typo" then
    let duplicate := <["Voter_ID" := voter_id rnd]> duplicate in
    match field voter_record "Date_of_Birth" with
    | Returns dob =>
        match strptime dob with
        | Some original_dob =>
            match add_days original_dob (day_shift rnd) with
            | Some new_dob =>
                Returns (<["Date_of_Birth" := strftime new_dob]> duplicate)
            | None => Fails OverflowError
            end
        | None => Fails ValueError
        end
    | Fails e => Fails e
    end
  else if String.eqb duplicate_type "phonetic" then
    let duplicate := <["Voter_ID" := voter_id rnd]> duplicate in
    match field voter_record "Full_Name" with
    | Returns full_name =>
        let name := replace_phonetic replacements (lower full_name) in
        Returns (<["Full_Name" := title name]> duplicate)
    | Fails e => Fails e
    end
  else Returns duplicate.

(** The duplicate types of [generate_voter_dataset], with the column that
    each one changes besides [Voter_ID]. *)
Definition duplicate_types : list (string * option string) :=
  [("exact", None); ("typo_name", Some "Full_Name");
   ("missing_char", Some "Full_Name"); ("extra_space", Some "Full_Name");
   ("case_change", Some "Full_Name"); ("address_typo", Some "Address");
   ("abbreviated", Some "Full_Name");
   ("father_name_diff", Some "Father_Mother_Name");
   ("dob_typo", Some "Date_of_Birth"); ("phonetic", Some "Full_Name")].

(** A word: a string that is not empty and has no white space. *)
Fixpoint no_space (s : string) : bool :=
  match s with
  | EmptyString => true
  | String a s' => negb (is_space a) && no_space s'
  end.

Definition is_word (w : string) : bool := starts_word w && no_space w.

(** A calendar and a record for the examples: the day numbers of three
    dates, counted from 1970-01-01. *)
Module GeneratorExamples.

Definition calendar : Calendar :=
  {| strptime := λ s, if String.eqb s "1990-05-17" then Some 7441 else None;
     add_days := λ d k, Some (d + k);
     strftime := λ d, if d =? 7442 then "1990-05-18"
                      else if d =? 7440 then "1990-05-16"
                      else "1990-05-17" |}.

Definition rnd : draws :=
  {| randint := λ a b, b;
     ascii_letter := "x";
     voter_id := "XYZ7654321";
     fake_name := "Asha Rao";
     day_shift := 1 |}.

Definition voter : gmap string string :=
  {[ "Voter_ID" := "ABC1234567"; "Full_Name" := "Ravi  Kumar Singh";
     "Date_of_Birth" := "1990-05-17"; "Address" := "12 MG ROAD";
     "Gender" := "Male" ]}.

(** A record without the column [Full_Name]. *)
Definition nameless : gmap string string :=
  {[ "Voter_ID" := "ABC1234567"; "Date_of_Birth" := "1990-05-17" ]}.

End GeneratorExamples.

(** * Properties *)

(** ** Framing: the comparison of a pair only appends to the state *)

Lemma extend_nil st : extend st [] [] = st.
Proof. destruct st; unfold extend; simpl. by rewrite !app_nil_r. Qed.

Lemma extend_extend st ds evs ds' evs' :
  extend (extend st ds evs) ds' evs' = extend st (ds ++ ds') (evs ++ evs').
Proof. unfold extend; simpl. by rewrite !app_assoc. Qed.

Lemma framed_ret {A} (a : A) : framed (ret a).
Proof. intros st. unfold ret; simpl. by rewrite extend_nil. Qed.

Lemma framed_raise {A} (e : exn) : framed (raise (A := A) e).
Proof. intros st. unfold raise; simpl. by rewrite extend_nil. Qed.

Lemma framed_log (e : event) : framed (log e).
Proof. intros st. unfold log, extend; simpl. by rewrite app_nil_r. Qed.

Lemma framed_duplicates_append (d : duplicate) : framed (duplicates_append d).
Proof. intros st. unfold duplicates_append, extend; simpl. by rewrite app_nil_r. Qed.

Lemma framed_bind {A B} (m : M A) (k : A → M B) :
  framed m → (∀ a, framed (k a)) → framed (bind m k).
Proof.
  intros Hm Hk st. unfold bind. rewrite (Hm st).
  destruct (m initial_state) as [s1 [a|e]]; simpl; [|done].
  rewrite (Hk a (extend st _ _)), (Hk a s1); simpl.
  by rewrite extend_extend.
Qed.

Lemma framed_iloc (df : table) (i : nat) : framed (iloc df i).
Proof. unfold iloc. destruct (df !! i); [apply framed_ret | apply framed_raise]. Qed.

Lemma framed_getitem (r : row) (c : string) : framed (getitem r c).
Proof. unfold getitem. destruct (r !! c); [apply framed_ret | apply framed_raise]. Qed.

Create HintDb framing.
#[global] Hint Resolve framed_ret framed_raise framed_log
  framed_duplicates_append framed_iloc framed_getitem : framing.

Ltac framing :=
  repeat first
    [ apply framed_bind; [|intros]
    | progress eauto with framing
    | match goal with
      | |- framed (if ?b then _ else _) => destruct b
      | |- framed (let '(_, _) := ?x in _) => destruct x
      | |- framed (match ?x with _ => _ end) => destruct x
      end ].

Section ScanFacts.
Context {lib : External}.
Variable df : table.
Variables name_threshold dob_tolerance_days : Z.
Variable check_addr : bool.
Variable addr_threshold : Z.

Local Abbreviation compare :=
  (compare_records df name_threshold dob_tolerance_days check_addr
     addr_threshold).
Local Abbreviation body :=
  (loop_body df name_threshold dob_tolerance_days check_addr addr_threshold).
Local Abbreviation outcome_of :=
  (outcome df name_threshold dob_tolerance_days check_addr addr_threshold).
Local Abbreviation outcomes_of :=
  (outcomes df name_threshold dob_tolerance_days check_addr addr_threshold).

Lemma framed_compare_records i j : framed (compare i j).
Proof. unfold compare_records. framing. Qed.

Lemma compare_records_outcome i j st :
  compare i j st =
  (extend st (outcome_of (i, j)).1.1 (outcome_of (i, j)).1.2,
   (outcome_of (i, j)).2).
Proof. by rewrite framed_compare_records. Qed.

End ScanFacts.

(** ** Loops *)

Lemma for_each_ext {A} (l : list A) (f g : A → M unit) st :
  (∀ x st', f x st' = g x st') → for_each l f st = for_each l g st.
Proof.
  intros Hfg. revert st. induction l as [|x l IH]; intros st; [done|].
  simpl. unfold bind. rewrite Hfg. destruct (g x st) as [st' [[]|e]]; auto.
Qed.

Lemma for_each_app {A} (l1 l2 : list A) (f : A → M unit) st :
  for_each (l1 ++ l2) f st =
  bind (for_each l1 f) (λ _, for_each l2 f) st.
Proof.
  revert st. induction l1 as [|x l1 IH]; intros st; [done|].
  simpl. unfold bind in *. destruct (f x st) as [st' [[]|e]]; [|done].
  apply IH.
Qed.

Lemma for_each_map {A B} (h : A → B) (l : list A) (f : B → M unit) st :
  for_each (map h l) f st = for_each l (λ x, f (h x)) st.
Proof.
  revert st. induction l as [|x l IH]; intros st; [done|].
  simpl. unfold bind. destruct (f (h x) st) as [st' [[]|e]]; auto.
Qed.

Lemma for_each_flat_map {A B} (g : A → list B) (l : list A)
    (f : B → M unit) st :
  for_each (flat_map g l) f st = for_each l (λ x, for_each (g x) f) st.
Proof.
  revert st. induction l as [|x l IH]; intros st; [done|].
  simpl. rewrite for_each_app. unfold bind.
  destruct (for_each (g x) f st) as [st' [[]|e]]; auto.
Qed.

(** The two nested loops visit [pairs n] in order. *)
Lemma nested_loops_pairs (n : nat) (f : nat → nat → M unit) st :
  for_each (range 0 n) (λ i, for_each (range (i + 1) n) (λ j, f i j)) st =
  for_each (pairs n) (λ p, f p.1 p.2) st.
Proof.
  unfold pairs. rewrite for_each_flat_map. apply for_each_ext.
  intros i st'. by rewrite for_each_map.
Qed.

Lemma elem_of_range (a b x : nat) : x ∈ range a b ↔ (a ≤ x < b)%nat.
Proof. unfold range. rewrite elem_of_seq. lia. Qed.

Lemma elem_of_pairs (n i j : nat) : (i, j) ∈ pairs n ↔ (i < j < n)%nat.
Proof.
  unfold pairs. rewrite list_elem_of_In, in_flat_map. split.
  - intros (i' & Hi' & Hin). apply list_elem_of_In in Hin.
    apply list_elem_of_fmap in Hin as (j' & [= -> ->] & Hj').
    apply elem_of_range in Hj'. lia.
  - intros Hij. exists i. split.
    + apply list_elem_of_In, elem_of_range. lia.
    + apply list_elem_of_In, list_elem_of_fmap. exists j. split; [done|].
      apply elem_of_range. lia.
Qed.

Lemma NoDup_flat_map_pairs (g : nat → list nat) (l : list nat) :
  NoDup l → (∀ i, NoDup (g i)) →
  NoDup (flat_map (λ i, map (λ j, (i, j)) (g i)) l).
Proof.
  intros Hl Hg. induction Hl as [|i l Hi Hl IH]; simpl; [constructor|].
  apply NoDup_app. split; [|split; [|done]].
  - apply NoDup_fmap_2; [|done]. by intros ?? [= ->].
  - intros [i' j] Hin Hin'.
    apply list_elem_of_fmap in Hin as (j' & [= -> ->] & _).
    apply list_elem_of_In, in_flat_map in Hin' as (i' & Hi' & Hin').
    apply list_elem_of_In, list_elem_of_fmap in Hin' as (j'' & [= -> ->] & _).
    by apply Hi, list_elem_of_In.
Qed.

Lemma NoDup_pairs (n : nat) : NoDup (pairs n).
Proof.
  apply NoDup_flat_map_pairs; [apply NoDup_seq|]. intros i. apply NoDup_seq.
Qed.

(** ** The scan with and without the set [compared] *)

Section Runs.
Context {lib : External}.
Variable df : table.
Variables name_threshold dob_tolerance_days : Z.
Variable check_addr : bool.
Variable addr_threshold : Z.

Local Abbreviation compare :=
  (compare_records df name_threshold dob_tolerance_days check_addr
     addr_threshold).
Local Abbreviation body :=
  (loop_body df name_threshold dob_tolerance_days check_addr addr_threshold).
Local Abbreviation outcome_of :=
  (outcome df name_threshold dob_tolerance_days check_addr addr_threshold).
Local Abbreviation outcomes_of :=
  (outcomes df name_threshold dob_tolerance_days check_addr addr_threshold).

Lemma for_each_compare (l : list (nat * nat)) st :
  for_each l (λ p, compare p.1 p.2) st =
  (extend st (outcomes_of l).1.1 (outcomes_of l).1.2, (outcomes_of l).2).
Proof.
  revert st. induction l as [|[i j] l IH]; intros st; cbn.
  - unfold ret. by rewrite extend_nil.
  - unfold bind. rewrite compare_records_outcome.
    destruct (outcome_of (i, j)) as [[ds evs] [[]|e]]; cbn; [|done].
    rewrite IH. destruct (outcomes_of l) as [[ds' evs'] r]; cbn.
    by rewrite extend_extend.
Qed.

Lemma sorted_pair_le (i j : nat) : (i ≤ j)%nat → sorted_pair i j = (i, j).
Proof.
  intros Hij. unfold sorted_pair.
  destruct (j <? i)%nat eqn:E; [|done]. apply Nat.ltb_lt in E. lia.
Qed.

(** A pair that is not in [compared] is added to it and compared. *)
Lemma loop_body_fresh (i j : nat) st :
  (i ≤ j)%nat → (i, j) ∉ compared st →
  body i j st =
  (with_compared ({[(i, j)]} ∪ compared st)
     (extend st (outcome_of (i, j)).1.1 (outcome_of (i, j)).1.2),
   (outcome_of (i, j)).2).
Proof.
  intros Hij Hfresh. unfold loop_body, bind, in_compared.
  rewrite sorted_pair_le by done. rewrite bool_decide_eq_false_2 by done.
  unfold compared_add. by rewrite compare_records_outcome.
Qed.

(** On pairwise distinct pairs none of which is in [compared], the loop
    with the test on [compared] does what the loop without it does. *)
Lemma for_each_loop_body (l : list (nat * nat)) st :
  NoDup l → (∀ p, p ∈ l → (p.1 ≤ p.2)%nat) →
  (∀ p, p ∈ l → p ∉ compared st) →
  ∃ c, for_each l (λ p, body p.1 p.2) st =
       (with_compared c
          (extend st (outcomes_of l).1.1 (outcomes_of l).1.2),
        (outcomes_of l).2).
Proof.
  intros Hnd. revert st.
  induction Hnd as [|[i j] l Hp Hnd IH]; intros st Hle Hfresh; cbn.
  - exists (compared st). unfold ret, with_compared. rewrite extend_nil.
    by destruct st.
  - unfold bind. rewrite loop_body_fresh.
    2: { apply (Hle (i, j)). left. }
    2: { apply Hfresh. left. }
    destruct (outcome_of (i, j)) as [[ds evs] [[]|e]]; cbn; [|by eexists].
    destruct (IH (with_compared ({[(i, j)]} ∪ compared st) (extend st ds evs)))
      as [c Hc].
    + intros p Hin. apply Hle. by right.
    + intros p Hin. simpl. intros [Heq%elem_of_singleton|Hc]%elem_of_union.
      * by subst p.
      * revert Hc. apply Hfresh. by right.
    + exists c. rewrite Hc.
      destruct (outcomes_of l) as [[ds' evs'] r]; cbn.
      unfold with_compared, extend; simpl. by rewrite !app_assoc.
Qed.

(** The two scans in terms of the outcomes of the pairs. *)
Lemma detect_duplicates_without_set_outcomes :
  detect_duplicates_without_set df name_threshold dob_tolerance_days
    check_addr addr_threshold =
  (extend initial_state (outcomes_of (pairs (length df))).1.1
     (outcomes_of (pairs (length df))).1.2,
   match (outcomes_of (pairs (length df))).2 with
   | Ok _ => Ok (outcomes_of (pairs (length df))).1.1
   | Raise e => Raise e
   end).
Proof.
  unfold detect_duplicates_without_set, scan_without_set, bind.
  rewrite nested_loops_pairs, for_each_compare.
  by destruct (outcomes_of (pairs (length df))) as [[ds evs] [[]|e]].
Qed.

Lemma detect_duplicates_outcomes :
  ∃ c,
    detect_duplicates df name_threshold dob_tolerance_days check_addr
      addr_threshold =
    (with_compared c
       (extend initial_state (outcomes_of (pairs (length df))).1.1
          (outcomes_of (pairs (length df))).1.2),
     match (outcomes_of (pairs (length df))).2 with
     | Ok _ => Ok (outcomes_of (pairs (length df))).1.1
     | Raise e => Raise e
     end).
Proof.
  destruct (for_each_loop_body (pairs (length df)) initial_state) as [c Hc].
  - apply NoDup_pairs.
  - intros [i j] Hin%elem_of_pairs. simpl. lia.
  - intros p _. simpl. set_solver.
  - exists c. unfold detect_duplicates, scan, bind.
    rewrite nested_loops_pairs, Hc.
    by destruct (outcomes_of (pairs (length df))) as [[ds evs] [[]|e]].
Qed.

End Runs.

(** ** What the comparison of one pair appends *)

(** Runs a comparison from the initial state, up to its first lookup. *)
Ltac run_monad :=
  unfold outcome, compare_records, bind, iloc, getitem, ret, raise, log,
    duplicates_append, initial_state; cbn.

Lemma has_columns_intro (r : row) v n d a :
  r !! "Voter_ID" = Some v → r !! "Full_Name" = Some n →
  r !! "Date_of_Birth" = Some d → r !! "Address" = Some a →
  has_columns r.
Proof.
  intros Hv Hn Hd Ha c Hc. unfold required_columns in Hc.
  repeat (apply elem_of_cons in Hc as [->|Hc]); eauto.
  by apply elem_of_nil in Hc.
Qed.

Lemma has_columns_lookup (r : row) (c : string) :
  has_columns r → c ∈ required_columns → r !! c = Some (column r c).
Proof.
  intros Hr Hc. destruct (Hr c Hc) as [x Hx]. unfold column. by rewrite Hx.
Qed.

Lemma column_lookup (r : row) (c : string) x :
  r !! c = Some x → column r c = x.
Proof. intros Hx. unfold column. by rewrite Hx. Qed.

Section Outcome.
Context {lib : External}.
Variable df : table.
Variables name_threshold dob_tolerance_days : Z.
Variable check_addr : bool.
Variable addr_threshold : Z.

Local Abbreviation outcome_of :=
  (outcome df name_threshold dob_tolerance_days check_addr addr_threshold).
Local Abbreviation entry_of :=
  (entry name_threshold dob_tolerance_days check_addr addr_threshold).
Local Abbreviation events_of := (events name_threshold check_addr).

(** On rows that have the four columns the comparison does not raise; it
    appends the entry of the pair, if there is one. *)
Lemma outcome_well_formed (i j : nat) (r1 r2 : row) :
  df !! i = Some r1 → df !! j = Some r2 →
  has_columns r1 → has_columns r2 →
  outcome_of (i, j) =
  (option_list (entry_of i j r1 r2), events_of i j r1 r2, Ok tt).
Proof.
  intros Hi Hj H1 H2.
  assert (Hin : ∀ c, c ∈ required_columns →
    r1 !! c = Some (column r1 c) ∧ r2 !! c = Some (column r2 c)).
  { intros c Hc. split; by apply has_columns_lookup. }
  destruct (Hin "Voter_ID") as [Hv1 Hv2]; [by repeat constructor|].
  destruct (Hin "Full_Name") as [Hn1 Hn2]; [by repeat constructor|].
  destruct (Hin "Date_of_Birth") as [Hd1 Hd2]; [by repeat constructor|].
  destruct (Hin "Address") as [Ha1 Ha2]; [by repeat constructor|].
  run_monad. rewrite Hi, Hj. cbn. rewrite Hn1, Hn2. cbn.
  unfold entry, events, name_similarity_of, dob_difference_of,
    address_similarity_of.
  destruct (Qltb _ _); [done|].
  rewrite Hd1, Hd2. cbn.
  destruct check_addr; cbn.
  - rewrite Ha1, Ha2. cbn.
    destruct (classify _ _ _ _ _ _ _) as [[[] c] rs]; cbn; [|done].
    by rewrite Hv1, Hv2.
  - destruct (classify _ _ _ _ _ _ _) as [[[] c] rs]; cbn; [|done].
    by rewrite Hv1, Hv2, Ha1, Ha2.
Qed.

(** On every table a comparison either completes, and then it appends the
    entry of the pair, if there is one, and logs all its invocations; or
    it raises, and then it appends no entry and has logged an initial part
    of the invocations. *)
Lemma outcome_inv (p : nat * nat) :
  outcome_of p =
    (option_list
       (entry_at df name_threshold dob_tolerance_days check_addr
          addr_threshold p),
     events_at df name_threshold check_addr p, Ok tt)
  ∨ ∃ evs e,
      outcome_of p = ([], evs, Raise e)
      ∧ evs `prefix_of` events_at df name_threshold check_addr p.
Proof.
  destruct p as [i j]. unfold events_at, entry_at. cbn [fst snd].
  destruct (df !! i) as [r1|] eqn:Hi;
    [|right; run_monad; rewrite Hi; cbn; eauto using prefix_nil].
  destruct (df !! j) as [r2|] eqn:Hj;
    [|right; run_monad; rewrite Hi, Hj; cbn; eauto using prefix_nil].
  destruct (r1 !! "Full_Name") as [n1|] eqn:Hn1;
    [|right; run_monad; rewrite Hi, Hj; cbn; rewrite Hn1; cbn;
      eauto using prefix_nil].
  destruct (r2 !! "Full_Name") as [n2|] eqn:Hn2;
    [|right; run_monad; rewrite Hi, Hj; cbn; rewrite Hn1, Hn2; cbn;
      eauto using prefix_nil].
  run_monad. rewrite Hi, Hj. cbn. rewrite Hn1, Hn2. cbn.
  unfold events, entry, name_similarity_of, dob_difference_of,
    address_similarity_of.
  rewrite (column_lookup _ _ _ Hn1), (column_lookup _ _ _ Hn2).
  destruct (Qltb _ _); cbn; [by left|].
  destruct (r1 !! "Date_of_Birth") as [d1|] eqn:Hd1; cbn;
    [|right; eauto using prefix_cons, prefix_nil].
  destruct (r2 !! "Date_of_Birth") as [d2|] eqn:Hd2; cbn;
    [|right; eauto using prefix_cons, prefix_nil].
  rewrite (column_lookup _ _ _ Hd1), (column_lookup _ _ _ Hd2).
  destruct check_addr; cbn.
  - destruct (r1 !! "Address") as [a1|] eqn:Ha1; cbn;
      [|right; eauto 6 using prefix_cons, prefix_nil].
    destruct (r2 !! "Address") as [a2|] eqn:Ha2; cbn;
      [|right; eauto 6 using prefix_cons, prefix_nil].
    rewrite (column_lookup _ _ _ Ha1), (column_lookup _ _ _ Ha2).
    destruct (classify _ _ _ _ _ _ _) as [[[] c] rs]; cbn; [|by left].
    destruct (r1 !! "Voter_ID") as [v1|] eqn:Hv1; cbn; [|right; eauto].
    destruct (r2 !! "Voter_ID") as [v2|] eqn:Hv2; cbn; [|right; eauto].
    rewrite (column_lookup _ _ _ Hv1), (column_lookup _ _ _ Hv2).
    by left.
  - destruct (classify _ _ _ _ _ _ _) as [[[] c] rs]; cbn; [|by left].
    destruct (r1 !! "Voter_ID") as [v1|] eqn:Hv1; cbn; [|right; eauto].
    destruct (r2 !! "Voter_ID") as [v2|] eqn:Hv2; cbn; [|right; eauto].
    destruct (r1 !! "Address") as [a1|] eqn:Ha1; cbn; [|right; eauto].
    destruct (r2 !! "Address") as [a2|] eqn:Ha2; cbn; [|right; eauto].
    rewrite (column_lookup _ _ _ Hv1), (column_lookup _ _ _ Hv2),
      (column_lookup _ _ _ Ha1), (column_lookup _ _ _ Ha2).
    by left.
Qed.

End Outcome.

(** ** What a scan appends *)

Section Outcomes.
Context {lib : External}.
Variable df : table.
Variables name_threshold dob_tolerance_days : Z.
Variable check_addr : bool.
Variable addr_threshold : Z.

Local Abbreviation outcome_of :=
  (outcome df name_threshold dob_tolerance_days check_addr addr_threshold).
Local Abbreviation outcomes_of :=
  (outcomes df name_threshold dob_tolerance_days check_addr addr_threshold).
Local Abbreviation entries l :=
  (omap (entry_at df name_threshold dob_tolerance_days check_addr
           addr_threshold) l).
Local Abbreviation invocations l :=
  (flat_map (events_at df name_threshold check_addr) l).

Lemma outcomes_inv (l : list (nat * nat)) :
  (outcomes_of l).1.1 `prefix_of` entries l
  ∧ (outcomes_of l).1.2 `prefix_of` invocations l
  ∧ (∀ u, (outcomes_of l).2 = Ok u →
       (outcomes_of l).1.1 = entries l ∧ (outcomes_of l).1.2 = invocations l).
Proof.
  induction l as [|p l (IHd & IHe & IHok)]; cbn; [done|].
  destruct (outcome_inv df name_threshold dob_tolerance_days check_addr
              addr_threshold p) as [->|(evs & e & -> & Hevs)]; cbn.
  - destruct (outcomes_of l) as [[ds' evs'] r]; cbn in *.
    destruct (entry_at _ _ _ _ _ p) as [d|]; cbn.
    + split_and!; [by apply prefix_cons | by apply prefix_app|].
      intros u Hu. destruct (IHok u Hu) as [-> ->]. done.
    + split_and!; [done | by apply prefix_app|].
      intros u Hu. destruct (IHok u Hu) as [-> ->]. done.
  - split_and!; [apply prefix_nil | by apply prefix_app_r | done].
Qed.

Lemma well_formed_lookup (i : nat) :
  well_formed df → (i < length df)%nat →
  ∃ r, df !! i = Some r ∧ has_columns r.
Proof.
  intros Hwf Hi. destruct (lookup_lt_is_Some_2 df i Hi) as [r Hr].
  exists r. split; [done|]. by eapply Forall_lookup_1.
Qed.

Lemma outcomes_well_formed (l : list (nat * nat)) :
  well_formed df →
  (∀ p, p ∈ l → (p.1 < length df)%nat ∧ (p.2 < length df)%nat) →
  outcomes_of l = (entries l, invocations l, Ok tt).
Proof.
  intros Hwf. induction l as [|[i j] l IH]; intros Hl; cbn; [done|].
  destruct (Hl (i, j)) as [Hi Hj]; [left|]. cbn in Hi, Hj.
  destruct (well_formed_lookup i Hwf Hi) as (r1 & Hr1 & Hc1).
  destruct (well_formed_lookup j Hwf Hj) as (r2 & Hr2 & Hc2).
  rewrite (outcome_well_formed _ _ _ _ _ i j r1 r2) by done.
  rewrite IH by (intros p Hp; apply Hl; by right).
  unfold entry_at, events_at. cbn. rewrite Hr1, Hr2.
  by destruct (entry _ _ _ _ i j r1 r2).
Qed.

(** On a table with the four required columns the scan returns the
    entries of all pairs, in the order of the loops. *)
Lemma detect_duplicates_well_formed :
  well_formed df →
  ∃ c,
    detect_duplicates df name_threshold dob_tolerance_days check_addr
      addr_threshold =
    (ScanState (entries (pairs (length df))) c
       (invocations (pairs (length df))),
     Ok (entries (pairs (length df)))).
Proof.
  intros Hwf.
  destruct (detect_duplicates_outcomes df name_threshold dob_tolerance_days
              check_addr addr_threshold) as [c ->].
  exists c. rewrite outcomes_well_formed; [done..|].
  intros [i j] Hin%elem_of_pairs. cbn. lia.
Qed.

(** On every table: whatever the scan has appended when it returns or
    raises is an initial part of the entries and invocations of all
    pairs, and all of them when it returns. *)
Lemma detect_duplicates_inv :
  ∃ st r,
    detect_duplicates df name_threshold dob_tolerance_days check_addr
      addr_threshold = (st, r)
    ∧ duplicates st `prefix_of` entries (pairs (length df))
    ∧ trace st `prefix_of` invocations (pairs (length df))
    ∧ (∀ ds, r = Ok ds →
         ds = entries (pairs (length df))
         ∧ trace st = invocations (pairs (length df))).
Proof.
  destruct (detect_duplicates_outcomes df name_threshold dob_tolerance_days
              check_addr addr_threshold) as [c ->].
  destruct (outcomes_inv (pairs (length df))) as (Hd & He & Hok).
  eexists _, _. split; [done|]. cbn. split_and!; [done..|].
  intros ds Hds.
  destruct (outcomes_of (pairs (length df))) as [[D E] [[]|e]];
    cbn in *; [|done].
  destruct (Hok () eq_refl) as [-> ->]. by injection Hds as <-.
Qed.

End Outcomes.

(** ** The classifier *)

Lemma Qgeb_true (x y : Q) : Qgeb x y = true ↔ (y <= x)%Q.
Proof. unfold Qgeb. apply Qle_bool_iff. Qed.

Lemma Qgeb_false (x y : Q) : Qgeb x y = false ↔ (x < y)%Q.
Proof.
  unfold Qgeb. rewrite <- not_true_iff_false, Qle_bool_iff.
  split; [apply Qnot_le_lt | apply Qlt_not_le].
Qed.

Lemma Qltb_true (x y : Q) : Qltb x y = true ↔ (x < y)%Q.
Proof. unfold Qltb. rewrite negb_true_iff. apply Qgeb_false. Qed.

Lemma Qltb_false (x y : Q) : Qltb x y = false ↔ (y <= x)%Q.
Proof. unfold Qltb. rewrite negb_false_iff. apply Qgeb_true. Qed.

Section Classifier.
Context {lib : External}.
Variables name_threshold dob_tolerance_days : Z.
Variable check_addr : bool.
Variable addr_threshold : Z.

Local Abbreviation classify_with :=
  (classify name_threshold dob_tolerance_days check_addr addr_threshold).

Lemma classify_high_name (name_sim : Q) (dob_diff addr_sim : Z) :
  (95 <= name_sim)%Q →
  classify_with name_sim dob_diff addr_sim =
  (true, name_sim, [high_name_reason name_sim]).
Proof. intros Hn. unfold classify. by apply Qgeb_true in Hn as ->. Qed.

Lemma classify_name_dob (name_sim : Q) (dob_diff addr_sim : Z) :
  (name_sim < 95)%Q → (inject_Z name_threshold <= name_sim)%Q →
  dob_diff ≤ dob_tolerance_days →
  classify_with name_sim dob_diff addr_sim =
  (true, ((name_sim + (100 - inject_Z dob_diff / 365 * 100)) / 2)%Q,
   [name_reason name_sim; dob_reason dob_diff]).
Proof.
  intros Hn Ht Hd. unfold classify.
  apply Qgeb_false in Hn as ->. apply Qgeb_true in Ht as ->.
  by apply Z.leb_le in Hd as ->.
Qed.

Lemma classify_name_address (name_sim : Q) (dob_diff addr_sim : Z) :
  (name_sim < 95)%Q → (inject_Z name_threshold <= name_sim)%Q →
  dob_tolerance_days < dob_diff →
  check_addr = true → addr_threshold ≤ addr_sim →
  classify_with name_sim dob_diff addr_sim =
  (true, ((name_sim + inject_Z addr_sim) / 2)%Q,
   [name_reason name_sim; address_reason addr_sim]).
Proof.
  intros Hn Ht Hd Hc Ha. unfold classify.
  apply Qgeb_false in Hn as ->. apply Qgeb_true in Ht as ->.
  apply Z.leb_gt in Hd as ->. rewrite Hc.
  by apply Z.geb_le in Ha as ->.
Qed.

(** The three ways in which [classify] sets [is_duplicate]. *)
Lemma classify_inv (name_sim : Q) (dob_diff addr_sim : Z) c rs :
  classify_with name_sim dob_diff addr_sim = (true, c, rs) →
  ((95 <= name_sim)%Q ∧ c = name_sim ∧ rs = [high_name_reason name_sim])
  ∨ ((name_sim < 95)%Q ∧ (inject_Z name_threshold <= name_sim)%Q
     ∧ dob_diff ≤ dob_tolerance_days
     ∧ c = ((name_sim + (100 - inject_Z dob_diff / 365 * 100)) / 2)%Q
     ∧ rs = [name_reason name_sim; dob_reason dob_diff])
  ∨ ((name_sim < 95)%Q ∧ (inject_Z name_threshold <= name_sim)%Q
     ∧ dob_tolerance_days < dob_diff
     ∧ check_addr = true ∧ addr_threshold ≤ addr_sim
     ∧ c = ((name_sim + inject_Z addr_sim) / 2)%Q
     ∧ rs = [name_reason name_sim; address_reason addr_sim]).
Proof.
  unfold classify.
  destruct (Qgeb name_sim 95) eqn:H95.
  { intros [= <- <-]. left. by apply Qgeb_true in H95. }
  apply Qgeb_false in H95.
  destruct (Qgeb name_sim (inject_Z name_threshold)) eqn:Ht; [|done].
  apply Qgeb_true in Ht.
  destruct (dob_diff <=? dob_tolerance_days) eqn:Hd; cbn.
  { intros [= <- <-]. right; left. by apply Z.leb_le in Hd. }
  apply Z.leb_gt in Hd.
  destruct check_addr; [|done]. cbn.
  destruct (addr_sim >=? addr_threshold) eqn:Ha; [|done].
  intros [= <- <-]. right; right. by apply Z.geb_le in Ha.
Qed.

End Classifier.

(** ** The three metrics *)

Section MetricFacts.
Context {lib : External}.

Lemma calculate_dob_difference_nonneg (dob1 dob2 : cell) :
  0 ≤ calculate_dob_difference dob1 dob2.
Proof.
  unfold calculate_dob_difference.
  destruct (isna dob1 || isna dob2); [lia|].
  destruct (to_datetime (str dob1)), (to_datetime (str dob2)); lia.
Qed.

Lemma days_opp (delta : Z) :
  (ns_per_day | delta) → days (- delta) = - days delta.
Proof.
  intros [k ->]. unfold days.
  rewrite <- Z.mul_opp_l, !Z.div_mul; [done|by unfold ns_per_day..].
Qed.

Lemma calculate_name_similarity_comm (name1 name2 : cell) :
  symmetric_measure fuzz_ratio → symmetric_measure fuzz_partial_ratio →
  symmetric_measure fuzz_token_sort_ratio →
  symmetric_measure fuzz_token_set_ratio →
  calculate_name_similarity name1 name2 =
  calculate_name_similarity name2 name1.
Proof.
  intros Hr Hp Hs Ht. unfold calculate_name_similarity.
  rewrite (orb_comm (isna name2)).
  destruct (isna name1 || isna name2); [done|].
  cbn zeta. by rewrite (Hr (upper _)), (Hp (upper _)), (Hs (upper _)),
    (Ht (upper _)).
Qed.

Lemma calculate_address_similarity_comm (addr1 addr2 : cell) :
  symmetric_measure fuzz_token_set_ratio →
  calculate_address_similarity addr1 addr2 =
  calculate_address_similarity addr2 addr1.
Proof.
  intros Ht. unfold calculate_address_similarity.
  rewrite (orb_comm (isna addr2)).
  destruct (isna addr1 || isna addr2); [done|]. apply Ht.
Qed.

Lemma calculate_dob_difference_comm (dob1 dob2 : cell) :
  whole_day dob1 → whole_day dob2 →
  calculate_dob_difference dob1 dob2 = calculate_dob_difference dob2 dob1.
Proof.
  intros H1 H2. unfold calculate_dob_difference.
  rewrite (orb_comm (isna dob2)).
  destruct (isna dob1 || isna dob2); [done|].
  destruct (to_datetime (str dob1)) as [date1|] eqn:E1,
    (to_datetime (str dob2)) as [date2|] eqn:E2; try done.
  replace (date2 - date1) with (- (date1 - date2)) by lia.
  rewrite days_opp, Z.abs_opp; [done|].
  apply Z.divide_sub_r; auto.
Qed.

Lemma calculate_name_similarity_missing (name1 name2 : cell) :
  name1 = NaN ∨ name2 = NaN → calculate_name_similarity name1 name2 = 0%Q.
Proof.
  intros [-> | ->]; unfold calculate_name_similarity; [done|].
  by rewrite orb_true_r.
Qed.

Lemma calculate_address_similarity_missing (addr1 addr2 : cell) :
  addr1 = NaN ∨ addr2 = NaN → calculate_address_similarity addr1 addr2 = 0.
Proof.
  intros [-> | ->]; unfold calculate_address_similarity; [done|].
  by rewrite orb_true_r.
Qed.

Lemma calculate_dob_difference_missing (dob1 dob2 : cell) :
  dob1 = NaN ∨ dob2 = NaN → calculate_dob_difference dob1 dob2 = 999999.
Proof.
  intros [-> | ->]; unfold calculate_dob_difference; [done|].
  by rewrite orb_true_r.
Qed.

End MetricFacts.

(** Facts on the tables and the instance of the examples. *)

Lemma example_voter_has_columns (id name dob address : cell) :
  has_columns (Examples.voter id name dob address).
Proof. by eapply has_columns_intro; vm_compute. Qed.

(** C8. The date-of-birth difference depends on the order of its
    arguments: line 94 takes [.days] of the difference, which rounds
    towards minus infinity, and only then the absolute value. Between noon
    of 17 May 1990 and the start of 18 May 1990 the difference is 1 day in
    one order and 0 days in the other. *)
Theorem dob_difference_not_symmetric :
  calculate_dob_difference (lib := Examples.lib)
    (Str "1990-05-17 12:00:00") (Str "1990-05-18") = 1
  ∧ calculate_dob_difference (lib := Examples.lib)
      (Str "1990-05-18") (Str "1990-05-17 12:00:00") = 0
  ∧ calculate_dob_difference (lib := Examples.lib)
      (Str "1990-05-17 12:00:00") (Str "1990-05-18")
    ≠ calculate_dob_difference (lib := Examples.lib)
        (Str "1990-05-18") (Str "1990-05-17 12:00:00").
Proof. split_and!; by vm_compute. Qed.

(** ** The entries of a scan *)

Section Entries.
Context {lib : External}.
Variable df : table.
Variables name_threshold dob_tolerance_days : Z.
Variable check_addr : bool.
Variable addr_threshold : Z.

Local Abbreviation entry_of :=
  (entry name_threshold dob_tolerance_days check_addr addr_threshold).
Local Abbreviation entry_at_of :=
  (entry_at df name_threshold dob_tolerance_days check_addr addr_threshold).
Local Abbreviation classify_with :=
  (classify name_threshold dob_tolerance_days check_addr addr_threshold).
Local Abbreviation address_similarity :=
  (address_similarity_of check_addr).

(** An entry records the positions and the metrics of its pair, and the
    confidence and the reasons that [classify] gives for them. *)
Lemma entry_inv (i j : nat) (r1 r2 : row) (d : duplicate) :
  entry_of i j r1 r2 = Some d →
  (inject_Z name_threshold <= name_similarity_of r1 r2)%Q
  ∧ positions d = (i, j)
  ∧ Name_Similarity d = name_similarity_of r1 r2
  ∧ DOB_Difference_Days d = dob_difference_of r1 r2
  ∧ Address_Similarity d = address_similarity r1 r2
  ∧ ∃ rs,
      classify_with (name_similarity_of r1 r2) (dob_difference_of r1 r2)
        (address_similarity r1 r2) = (true, Confidence_Score d, rs)
      ∧ Detection_Reasons d = join " | " rs.
Proof.
  unfold entry.
  destruct (Qltb _ _) eqn:Hgate; [done|]. apply Qltb_false in Hgate.
  destruct (classify _ _ _ _ _ _ _) as [[[] c] rs]; [|done].
  intros [= <-]. cbn. eauto 10.
Qed.

Lemma entry_intro (i j : nat) (r1 r2 : row) c rs :
  (inject_Z name_threshold <= name_similarity_of r1 r2)%Q →
  classify_with (name_similarity_of r1 r2) (dob_difference_of r1 r2)
    (address_similarity r1 r2) = (true, c, rs) →
  ∃ d, entry_of i j r1 r2 = Some d
       ∧ positions d = (i, j)
       ∧ Name_Similarity d = name_similarity_of r1 r2
       ∧ DOB_Difference_Days d = dob_difference_of r1 r2
       ∧ Address_Similarity d = address_similarity r1 r2
       ∧ Confidence_Score d = c
       ∧ Detection_Reasons d = join " | " rs.
Proof.
  intros Hgate Hcl. unfold entry.
  apply Qltb_false in Hgate as ->. rewrite Hcl.
  eexists. split; [done|]. by cbn.
Qed.

Lemma entry_below_threshold (i j : nat) (r1 r2 : row) :
  (name_similarity_of r1 r2 < inject_Z name_threshold)%Q →
  entry_of i j r1 r2 = None.
Proof. intros Hgate. unfold entry. by apply Qltb_true in Hgate as ->. Qed.

Lemma elem_of_entries (d : duplicate) :
  d ∈ omap entry_at_of (pairs (length df)) ↔
  ∃ i j r1 r2,
    (i < j)%nat ∧ df !! i = Some r1 ∧ df !! j = Some r2
    ∧ entry_of i j r1 r2 = Some d.
Proof.
  rewrite list_elem_of_omap. split.
  - intros ([i j] & Hin%elem_of_pairs & Hd). unfold entry_at in Hd.
    cbn in Hd.
    destruct (df !! i) as [r1|] eqn:Hi; [|done].
    destruct (df !! j) as [r2|] eqn:Hj; [|done].
    exists i, j, r1, r2. split_and!; [lia|done..].
  - intros (i & j & r1 & r2 & Hij & Hi & Hj & Hd). exists (i, j). split.
    + apply elem_of_pairs. apply lookup_lt_Some in Hj. lia.
    + unfold entry_at. cbn. by rewrite Hi, Hj.
Qed.


End Entries.

(** ** The rules of the classifier, on the result of a scan *)

Lemma example_well_formed_two (v1 n1 d1 a1 v2 n2 d2 a2 : cell) :
  well_formed [Examples.voter v1 n1 d1 a1; Examples.voter v2 n2 d2 a2].
Proof. repeat constructor; apply example_voter_has_columns. Qed.

Section Rules.
Context {lib : External}.
Variable df : table.
Variables name_threshold dob_tolerance_days : Z.
Variable check_addr : bool.
Variable addr_threshold : Z.

Local Abbreviation address_similarity :=
  (address_similarity_of check_addr).

(** What [classify] returns for a pair of rows of a table with the four
    columns is what the scan returns for their positions. *)
Lemma classified_pair_flagged (i j : nat) (r1 r2 : row) c rs :
  well_formed df → (i < j)%nat → df !! i = Some r1 → df !! j = Some r2 →
  (inject_Z name_threshold <= name_similarity_of r1 r2)%Q →
  classify name_threshold dob_tolerance_days check_addr addr_threshold
    (name_similarity_of r1 r2) (dob_difference_of r1 r2)
    (address_similarity r1 r2) = (true, c, rs) →
  ∃ st ds d,
    detect_duplicates df name_threshold dob_tolerance_days check_addr
      addr_threshold = (st, Ok ds)
    ∧ d ∈ ds ∧ positions d = (i, j)
    ∧ Name_Similarity d = name_similarity_of r1 r2
    ∧ DOB_Difference_Days d = dob_difference_of r1 r2
    ∧ Address_Similarity d = address_similarity r1 r2
    ∧ Confidence_Score d = c
    ∧ Detection_Reasons d = join " | " rs.
Proof.
  intros Hwf Hij Hi Hj Hgate Hcl.
  destruct (detect_duplicates_well_formed df name_threshold
              dob_tolerance_days check_addr addr_threshold Hwf) as [c' ->].
  destruct (entry_intro name_threshold dob_tolerance_days check_addr
              addr_threshold i j r1 r2 c rs Hgate Hcl) as (d & Hd & Hrest).
  eexists _, _, d. split; [done|]. split; [|done].
  apply elem_of_entries. by exists i, j, r1, r2.
Qed.

(** A pair below the name threshold is in no entry of the result. *)
Lemma below_threshold_not_flagged (i j : nat) (r1 r2 : row) :
  well_formed df → df !! i = Some r1 → df !! j = Some r2 →
  (name_similarity_of r1 r2 < inject_Z name_threshold)%Q →
  ∃ st ds,
    detect_duplicates df name_threshold dob_tolerance_days check_addr
      addr_threshold = (st, Ok ds)
    ∧ ∀ d, d ∈ ds → positions d ≠ (i, j).
Proof.
  intros Hwf Hi Hj Hgate.
  destruct (detect_duplicates_well_formed df name_threshold
              dob_tolerance_days check_addr addr_threshold Hwf) as [c' ->].
  eexists _, _. split; [done|].
  intros d (i' & j' & r1' & r2' & _ & Hi' & Hj' & Hd)%elem_of_entries Hpos.
  pose proof Hd as (_ & Hp & _)%entry_inv.
  rewrite Hp in Hpos. injection Hpos as -> ->.
  rewrite Hi in Hi'. rewrite Hj in Hj'. injection Hi' as <-.
  injection Hj' as <-.
  by rewrite entry_below_threshold in Hd.
Qed.

End Rules.

(** C1, as amended. In a table with the four required columns, a pair of
    rows whose name similarity is at least 95 and at least the name
    threshold is flagged with the name similarity as its confidence and
    the single reason "High name similarity (<value>%)", whatever its dates
    of birth and addresses are; a pair whose name similarity is below the
    name threshold is not flagged, also when its name similarity is at
    least 95. *)
Theorem high_name_similarity_flagged {lib : External} (df : table)
    (name_threshold dob_tolerance_days : Z) (check_addr : bool)
    (addr_threshold : Z) (i j : nat) (r1 r2 : row) :
  well_formed df → (i < j)%nat → df !! i = Some r1 → df !! j = Some r2 →
  ((95 <= name_similarity_of r1 r2)%Q →
   (inject_Z name_threshold <= name_similarity_of r1 r2)%Q →
   ∃ st ds d,
     detect_duplicates df name_threshold dob_tolerance_days check_addr
       addr_threshold = (st, Ok ds)
     ∧ d ∈ ds ∧ positions d = (i, j)
     ∧ Confidence_Score d = name_similarity_of r1 r2
     ∧ Detection_Reasons d =
         ("High name similarity (" ++ format_1f (name_similarity_of r1 r2)
          ++ "%)")%string)
  ∧ ((name_similarity_of r1 r2 < inject_Z name_threshold)%Q →
     ∃ st ds,
       detect_duplicates df name_threshold dob_tolerance_days check_addr
         addr_threshold = (st, Ok ds)
       ∧ ∀ d, d ∈ ds → positions d ≠ (i, j)).
Proof.
  intros Hwf Hij Hi Hj. split.
  - intros H95 Hgate.
    destruct (classified_pair_flagged df name_threshold dob_tolerance_days
                check_addr addr_threshold i j r1 r2 _ _ Hwf Hij Hi Hj Hgate
                (classify_high_name _ _ _ _ _ _ _ H95))
      as (st & ds & d & Hrun & Hin & Hpos & _ & _ & _ & Hc & Hrs).
    by exists st, ds, d.
  - by apply below_threshold_not_flagged.
Qed.

Lemma high_name_similarity_flagged_witness :
  ∃ st ds d,
    detect_duplicates (lib := Examples.lib) Examples.two_spellings 85 30
      true 70 = (st, Ok ds)
    ∧ d ∈ ds ∧ positions d = (0%nat, 1%nat)
    ∧ Confidence_Score d =
        name_similarity_of (lib := Examples.lib) Examples.ravi_kumar
          Examples.ravi_kumarr
    ∧ Detection_Reasons d =
        ("High name similarity ("
         ++ Examples.format1
              (name_similarity_of (lib := Examples.lib) Examples.ravi_kumar
                 Examples.ravi_kumarr)
         ++ "%)")%string.
Proof.
  refine (proj1 (high_name_similarity_flagged (lib := Examples.lib)
                   Examples.two_spellings 85 30 true 70 0 1
                   Examples.ravi_kumar Examples.ravi_kumarr _ _ _ _)
            _ _).
  - apply example_well_formed_two.
  - lia.
  - reflexivity.
  - reflexivity.
  - by vm_compute.
  - by vm_compute.
Defined.

(** C1, as stated, fails: with the name threshold at 100, two rows whose
    name similarity is 96 are not flagged. *)
Lemma high_name_similarity_below_threshold :
  (95 <= name_similarity_of (lib := Examples.lib) Examples.ravi_kumar
           Examples.ravi_kumarr)%Q
  ∧ (detect_duplicates (lib := Examples.lib)
       Examples.two_spellings 100 30 true 70).2 = Ok [].
Proof. split; by vm_compute. Qed.

(** C3. In a table with the four required columns, a pair of rows whose
    name similarity is below 95 and at least the name threshold and whose
    dates of birth differ by at most the tolerance is flagged, with the
    confidence (name similarity + (100 - days / 365 * 100)) / 2, and its
    reasons are the text "Name similarity (<value>%) | DOB difference
    (<days> days)": the name similarity formatted with one decimal and the
    difference in days in decimal digits. *)
Theorem similar_name_close_dob_flagged {lib : External} (df : table)
    (name_threshold dob_tolerance_days : Z) (check_addr : bool)
    (addr_threshold : Z) (i j : nat) (r1 r2 : row) :
  well_formed df → (i < j)%nat → df !! i = Some r1 → df !! j = Some r2 →
  (name_similarity_of r1 r2 < 95)%Q →
  (inject_Z name_threshold <= name_similarity_of r1 r2)%Q →
  dob_difference_of r1 r2 ≤ dob_tolerance_days →
  ∃ st ds d,
    detect_duplicates df name_threshold dob_tolerance_days check_addr
      addr_threshold = (st, Ok ds)
    ∧ d ∈ ds ∧ positions d = (i, j)
    ∧ Name_Similarity d = name_similarity_of r1 r2
    ∧ DOB_Difference_Days d = dob_difference_of r1 r2
    ∧ Confidence_Score d =
        ((name_similarity_of r1 r2
          + (100 - inject_Z (dob_difference_of r1 r2) / 365 * 100)) / 2)%Q
    ∧ Detection_Reasons d =
        (("Name similarity (" ++ format_1f (name_similarity_of r1 r2)
          ++ "%)") ++ " | "
         ++ ("DOB difference (" ++ pretty (dob_difference_of r1 r2)
             ++ " days)"))%string.
Proof.
  intros Hwf Hij Hi Hj H95 Hgate Hdob.
  destruct (classified_pair_flagged df name_threshold dob_tolerance_days
              check_addr addr_threshold i j r1 r2 _ _ Hwf Hij Hi Hj Hgate
              (classify_name_dob _ _ _ _ _ _
                 (address_similarity_of check_addr r1 r2) H95 Hgate Hdob))
    as (st & ds & d & Hrun & Hin & Hpos & Hn & Hd & _ & Hc & Hrs).
  by exists st, ds, d.
Qed.

Lemma similar_name_close_dob_flagged_witness :
  ∃ st ds d,
    detect_duplicates (lib := Examples.lib) Examples.close_dob 70 30 true 70
      = (st, Ok ds)
    ∧ d ∈ ds ∧ positions d = (0%nat, 1%nat)
    ∧ Name_Similarity d =
        name_similarity_of (lib := Examples.lib) Examples.ravi
          Examples.ravindra
    ∧ DOB_Difference_Days d =
        dob_difference_of (lib := Examples.lib) Examples.ravi
          Examples.ravindra
    ∧ Confidence_Score d =
        ((name_similarity_of (lib := Examples.lib) Examples.ravi
            Examples.ravindra
          + (100 - inject_Z (dob_difference_of (lib := Examples.lib)
                               Examples.ravi Examples.ravindra)
                   / 365 * 100)) / 2)%Q
    ∧ Detection_Reasons d =
        (("Name similarity ("
          ++ format_1f (External := Examples.lib)
               (name_similarity_of (lib := Examples.lib) Examples.ravi
                  Examples.ravindra)
          ++ "%)") ++ " | "
         ++ ("DOB difference ("
             ++ pretty (dob_difference_of (lib := Examples.lib)
                          Examples.ravi Examples.ravindra)
             ++ " days)"))%string.
Proof.
  apply (similar_name_close_dob_flagged (lib := Examples.lib)
           Examples.close_dob 70 30 true 70 0 1 Examples.ravi
           Examples.ravindra).
  - apply example_well_formed_two.
  - lia.
  - reflexivity.
  - reflexivity.
  - by vm_compute.
  - by vm_compute.
  - by vm_compute.
Defined.

(** ** The trace of a scan *)



Section Trace.
Context {lib : External}.
Variable df : table.
Variables name_threshold dob_tolerance_days : Z.
Variable check_addr : bool.
Variable addr_threshold : Z.

Local Abbreviation invocations l :=
  (flat_map (events_at df name_threshold check_addr) l).

Lemma elem_of_events_at (e : event) (p : nat * nat) :
  e ∈ events_at df name_threshold check_addr p →
  e = NameSimilarityCall p.1 p.2 ∨ e = DobDifferenceCall p.1 p.2
  ∨ (e = AddressSimilarityCall p.1 p.2 ∧ check_addr = true).
Proof.
  unfold events_at, events.
  destruct (df !! p.1) as [r1|], (df !! p.2) as [r2|];
    try by intros ?%elem_of_nil.
  intros [->|He]%elem_of_cons; [by left|].
  destruct (Qltb _ _); [by apply elem_of_nil in He|].
  apply elem_of_cons in He as [->|He]; [by right; left|].
  destruct check_addr; [|by apply elem_of_nil in He].
  apply list_elem_of_singleton in He as ->. by right; right.
Qed.

Lemma elem_of_invocations (e : event) (l : list (nat * nat)) :
  e ∈ invocations l →
  ∃ p, p ∈ l
       ∧ (e = NameSimilarityCall p.1 p.2 ∨ e = DobDifferenceCall p.1 p.2
          ∨ (e = AddressSimilarityCall p.1 p.2 ∧ check_addr = true)).
Proof.
  intros (p & Hp & He)%list_elem_of_In%in_flat_map.
  exists p. split; [by apply list_elem_of_In|].
  by apply elem_of_events_at, list_elem_of_In.
Qed.



End Trace.

(** C10. In every scan the branch that skips a pair already in [compared]
    is never taken, and the scan without the set and without the test
    appends the same entries, makes the same invocations and returns the
    same list or raises the same exception, for every table and all
    settings. *)
Theorem compared_set_redundant {lib : External} (df : table)
    (name_threshold dob_tolerance_days : Z) (check_addr : bool)
    (addr_threshold : Z) :
  let with_set :=
    detect_duplicates df name_threshold dob_tolerance_days check_addr
      addr_threshold in
  let without_set :=
    detect_duplicates_without_set df name_threshold dob_tolerance_days
      check_addr addr_threshold in
  (∀ i j, Skipped i j ∉ trace with_set.1)
  ∧ with_set.2 = without_set.2
  ∧ duplicates with_set.1 = duplicates without_set.1
  ∧ trace with_set.1 = trace without_set.1.
Proof.
  cbn zeta.
  destruct (detect_duplicates_outcomes df name_threshold dob_tolerance_days
              check_addr addr_threshold) as [c ->].
  rewrite detect_duplicates_without_set_outcomes. cbn.
  split; [|done].
  intros i j Hin.
  destruct (outcomes_inv df name_threshold dob_tolerance_days check_addr
              addr_threshold (pairs (length df))) as (_ & Hpre & _).
  eapply elem_of_prefix in Hin; [|exact Hpre].
  by apply elem_of_invocations in Hin as (p & _ & [?|[?|[? _]]]).
Qed.



(** ** The reasons tell the rules apart *)

Lemma string_app_inv_head (s a b : string) :
  (s ++ a)%string = (s ++ b)%string → a = b.
Proof. induction s as [|c s IH]; cbn; [done|]. intros [= ?]. auto. Qed.

Section Reasons.
Context {lib : External}.

Lemma high_name_not_address (d : duplicate) :
  flagged_by_high_name d → ¬ flagged_by_address d.
Proof.
  unfold flagged_by_high_name, flagged_by_address. intros ->. cbn. done.
Qed.

Lemma dob_not_address (d : duplicate) :
  flagged_by_dob d → ¬ flagged_by_address d.
Proof.
  unfold flagged_by_dob, flagged_by_address. intros ->. cbn [join].
  intros Heq%string_app_inv_head. cbn in Heq. done.
Qed.

Lemma high_name_not_dob (d : duplicate) :
  flagged_by_high_name d → ¬ flagged_by_dob d.
Proof.
  unfold flagged_by_high_name, flagged_by_dob. intros ->. cbn. done.
Qed.

Variables name_threshold dob_tolerance_days : Z.
Variable check_addr : bool.
Variable addr_threshold : Z.

(** The rule that flagged an entry, with the conditions under which
    [classify] applies it. *)
Lemma entry_rule (i j : nat) (r1 r2 : row) (d : duplicate) :
  entry name_threshold dob_tolerance_days check_addr addr_threshold i j
    r1 r2 = Some d →
  (inject_Z name_threshold <= Name_Similarity d)%Q
  ∧ ((flagged_by_high_name d ∧ (95 <= Name_Similarity d)%Q
      ∧ Confidence_Score d = Name_Similarity d)
     ∨ (flagged_by_dob d ∧ (Name_Similarity d < 95)%Q
        ∧ DOB_Difference_Days d ≤ dob_tolerance_days
        ∧ Confidence_Score d =
            ((Name_Similarity d
              + (100 - inject_Z (DOB_Difference_Days d) / 365 * 100)) / 2)%Q)
     ∨ (flagged_by_address d ∧ (Name_Similarity d < 95)%Q
        ∧ dob_tolerance_days < DOB_Difference_Days d
        ∧ check_addr = true ∧ addr_threshold ≤ Address_Similarity d
        ∧ Confidence_Score d =
            ((Name_Similarity d + inject_Z (Address_Similarity d)) / 2)%Q)).
Proof.
  intros (Hgate & _ & Hn & Hd & Ha & rs & Hcl & Hrs)%entry_inv.
  unfold flagged_by_high_name, flagged_by_dob, flagged_by_address.
  rewrite Hn, Hd, Ha, Hrs. split; [done|].
  apply classify_inv in Hcl
    as [(? & ? & ->)|[(? & ? & ? & ? & ->)|(? & ? & ? & ? & ? & ? & ->)]];
    [left|right; left|right; right]; done.
Qed.

End Reasons.

(** C6, as amended. When address comparison is disabled, the address
    similarity is never invoked, on any table; no returned entry carries
    the reasons of the third rule; and every returned entry records the
    address similarity 0, which is also a value that the address
    similarity computes. *)
Theorem address_disabled {lib : External} (df : table)
    (name_threshold dob_tolerance_days addr_threshold : Z) :
  let run :=
    detect_duplicates df name_threshold dob_tolerance_days false
      addr_threshold in
  (∀ i j, AddressSimilarityCall i j ∉ trace run.1)
  ∧ (∀ ds, run.2 = Ok ds →
       ∀ d, d ∈ ds → ¬ flagged_by_address d ∧ Address_Similarity d = 0)
  ∧ calculate_address_similarity NaN NaN = 0.
Proof.
  cbn zeta.
  destruct (detect_duplicates_inv df name_threshold dob_tolerance_days
              false addr_threshold) as (st & r & -> & _ & Htr & Hok).
  cbn. split_and!; [| |done].
  - intros i j Hin. eapply elem_of_prefix in Hin; [|exact Htr].
    by apply elem_of_invocations in Hin as (p & _ & [?|[?|[_ ?]]]).
  - intros ds Hds d Hd. destruct (Hok ds Hds) as [-> _].
    apply elem_of_entries in Hd as (i & j & r1 & r2 & _ & _ & _ & Hd).
    pose proof Hd as (_ & _ & _ & _ & Ha & _)%entry_inv.
    split; [|done].
    apply entry_rule in Hd
      as (_ & [(? & _)|[(? & _)|(_ & _ & _ & ? & _)]]);
      [by apply high_name_not_address | by apply dob_not_address | done].
Qed.

Lemma address_disabled_witness :
  ∃ d,
    (detect_duplicates (lib := Examples.lib) Examples.same_name 85 30 false
       70).2 = Ok [d]
    ∧ ¬ flagged_by_address (lib := Examples.lib) d
    ∧ Address_Similarity d = 0.
Proof.
  destruct (address_disabled (lib := Examples.lib) Examples.same_name 85 30
              70) as (_ & Hok & _).
  eexists. split; [by vm_compute|].
  apply (Hok _ eq_refl). by left.
Defined.

(** C6, as stated, fails: with address comparison disabled the entry
    records the address similarity 0, a value of the range 0 to 100, and
    the scan with address comparison enabled returns the same entry with
    the same address similarity, then computed. *)
Lemma address_disabled_not_distinguishable :
  ∃ d,
    (detect_duplicates (lib := Examples.lib)
       Examples.same_name 85 30 false 70).2
    = Ok [d]
    ∧ (detect_duplicates (lib := Examples.lib)
         Examples.same_name 85 30 true 70).2
      = Ok [d]
    ∧ Address_Similarity d = 0
    ∧ 0 ≤ Address_Similarity d ≤ 100.
Proof. eexists. split_and!; by vm_compute. Qed.

(** ** Monotonicity in the two thresholds *)

Lemma filter_omap_length_mono {A B} (P : B → Prop) `{!∀ y, Decision (P y)}
    (f g : A → option B) (l : list A) :
  (∀ x y, f x = Some y → g x = Some y) →
  (length (filter P (omap f l)) ≤ length (filter P (omap g l)))%nat.
Proof.
  intros Hfg. induction l as [|x l IH]; cbn; [done|].
  destruct (f x) as [y|] eqn:Hf.
  - rewrite (Hfg x y Hf). rewrite !filter_cons.
    destruct (decide (P y)); cbn; lia.
  - destruct (g x) as [y|]; [|done]. rewrite filter_cons.
    destruct (decide (P y)); cbn; lia.
Qed.

Lemma omap_length_mono {A B} (f g : A → option B) (l : list A) :
  (∀ x y, f x = Some y → g x = Some y) →
  (length (omap f l) ≤ length (omap g l))%nat.
Proof.
  intros Hfg. induction l as [|x l IH]; cbn; [done|].
  destruct (f x) as [y|] eqn:Hf.
  - rewrite (Hfg x y Hf). cbn. lia.
  - destruct (g x) as [y|]; cbn; lia.
Qed.

Section Monotone.
Context {lib : External}.
Variable df : table.
Variables name_threshold name_threshold' dob_tolerance_days : Z.
Variable check_addr : bool.
Variables addr_threshold addr_threshold' : Z.
Hypothesis name_threshold_le : name_threshold ≤ name_threshold'.
Hypothesis addr_threshold_le : addr_threshold' ≤ addr_threshold.

(** Whatever [classify] flags above the higher name threshold and the
    higher address threshold it flags, in the same way, with the lower
    ones. *)
Lemma classify_mono (name_sim : Q) (dob_diff addr_sim : Z) c rs :
  (inject_Z name_threshold' <= name_sim)%Q →
  classify name_threshold' dob_tolerance_days check_addr addr_threshold
    name_sim dob_diff addr_sim = (true, c, rs) →
  classify name_threshold dob_tolerance_days check_addr addr_threshold'
    name_sim dob_diff addr_sim = (true, c, rs).
Proof.
  intros Hgate Hcl.
  assert (Hgate' : (inject_Z name_threshold <= name_sim)%Q).
  { eapply Qle_trans; [|exact Hgate]. by rewrite <- Zle_Qle. }
  apply classify_inv in Hcl
    as [(? & -> & ->)|[(? & ? & ? & -> & ->)|(? & ? & ? & ? & ? & -> & ->)]].
  - by apply classify_high_name.
  - by apply classify_name_dob.
  - apply classify_name_address; [done..|lia].
Qed.

Lemma entry_mono (i j : nat) (r1 r2 : row) (d : duplicate) :
  entry name_threshold' dob_tolerance_days check_addr addr_threshold i j
    r1 r2 = Some d →
  entry name_threshold dob_tolerance_days check_addr addr_threshold' i j
    r1 r2 = Some d.
Proof.
  unfold entry.
  destruct (Qltb _ (inject_Z name_threshold')) eqn:Hgate; [done|].
  apply Qltb_false in Hgate.
  destruct (classify name_threshold' _ _ _ _ _ _) as [[[] c] rs] eqn:Hcl;
    [|done].
  apply classify_mono in Hcl; [|done]. rewrite Hcl.
  assert (Hgate' : (inject_Z name_threshold <= name_similarity_of r1 r2)%Q).
  { eapply Qle_trans; [|exact Hgate]. by rewrite <- Zle_Qle. }
  by apply Qltb_false in Hgate' as ->.
Qed.

Lemma entry_at_mono (p : nat * nat) (d : duplicate) :
  entry_at df name_threshold' dob_tolerance_days check_addr addr_threshold
    p = Some d →
  entry_at df name_threshold dob_tolerance_days check_addr addr_threshold'
    p = Some d.
Proof.
  unfold entry_at. destruct (df !! p.1), (df !! p.2); try done.
  apply entry_mono.
Qed.

End Monotone.

(** C7. On a table with the four required columns and with the other
    settings fixed, the scan with a higher name threshold returns at most
    as many entries, and the scan with a lower address threshold returns
    at least as many entries that carry the reasons of the third rule. *)
Theorem threshold_monotone {lib : External} (df : table)
    (name_threshold name_threshold' dob_tolerance_days : Z)
    (check_addr : bool) (addr_threshold addr_threshold' : Z) :
  well_formed df →
  name_threshold ≤ name_threshold' → addr_threshold' ≤ addr_threshold →
  ∃ ds ds_name ds_addr,
    (detect_duplicates df name_threshold dob_tolerance_days check_addr
       addr_threshold).2 = Ok ds
    ∧ (detect_duplicates df name_threshold' dob_tolerance_days check_addr
         addr_threshold).2 = Ok ds_name
    ∧ (detect_duplicates df name_threshold dob_tolerance_days check_addr
         addr_threshold').2 = Ok ds_addr
    ∧ (length ds_name ≤ length ds)%nat
    ∧ (length (filter flagged_by_address ds)
       ≤ length (filter flagged_by_address ds_addr))%nat.
Proof.
  intros Hwf Hn Ha.
  destruct (detect_duplicates_well_formed df name_threshold
              dob_tolerance_days check_addr addr_threshold Hwf) as [c1 ->].
  destruct (detect_duplicates_well_formed df name_threshold'
              dob_tolerance_days check_addr addr_threshold Hwf) as [c2 ->].
  destruct (detect_duplicates_well_formed df name_threshold
              dob_tolerance_days check_addr addr_threshold' Hwf) as [c3 ->].
  eexists _, _, _. split_and!; [done..| |].
  - apply omap_length_mono. intros p d.
    by apply (entry_at_mono df name_threshold name_threshold'
                dob_tolerance_days check_addr addr_threshold addr_threshold).
  - apply filter_omap_length_mono. intros p d.
    by apply (entry_at_mono df name_threshold name_threshold
                dob_tolerance_days check_addr addr_threshold addr_threshold').
Qed.

Lemma threshold_monotone_witness :
  ∃ ds ds_name ds_addr,
    (detect_duplicates (lib := Examples.lib) Examples.far_dob 70 5 true 80).2
    = Ok ds
    ∧ (detect_duplicates (lib := Examples.lib) Examples.far_dob 75 5 true
         80).2 = Ok ds_name
    ∧ (detect_duplicates (lib := Examples.lib) Examples.far_dob 70 5 true
         60).2 = Ok ds_addr
    ∧ (length ds_name ≤ length ds)%nat
    ∧ (length (filter (flagged_by_address (lib := Examples.lib)) ds)
       ≤ length (filter (flagged_by_address (lib := Examples.lib)) ds_addr))%nat.
Proof.
  apply (threshold_monotone (lib := Examples.lib) Examples.far_dob
           70 75 5 true 80 60).
  - apply example_well_formed_two.
  - lia.
  - lia.
Defined.

(** ** Missing fields *)

(** C9, as amended. The three metrics are total and give name similarity
    0, address similarity 0 and the difference 999999 when a field of
    either side is missing. On a table with the four required columns the
    scan returns. In what a scan returns: a row whose name is missing is
    in no entry when the name threshold is positive; an entry with a row
    whose date of birth is missing records the difference 999999 and, when
    the tolerance is below 999999, does not carry the reasons of the second
    rule; an entry with a row whose address is missing records the address
    similarity 0 and, when the address threshold is positive, does not
    carry the reasons of the third rule. *)
Theorem missing_fields {lib : External} (df : table)
    (name_threshold dob_tolerance_days : Z) (check_addr : bool)
    (addr_threshold : Z) :
  let run :=
    detect_duplicates df name_threshold dob_tolerance_days check_addr
      addr_threshold in
  (∀ x, calculate_name_similarity NaN x = 0%Q
        ∧ calculate_name_similarity x NaN = 0%Q
        ∧ calculate_address_similarity NaN x = 0
        ∧ calculate_address_similarity x NaN = 0
        ∧ calculate_dob_difference NaN x = 999999
        ∧ calculate_dob_difference x NaN = 999999)
  ∧ (well_formed df → ∃ ds, run.2 = Ok ds)
  ∧ (∀ ds d k r,
       run.2 = Ok ds → d ∈ ds → df !! k = Some r →
       Record_1_Index d = k ∨ Record_2_Index d = k →
       (0 < name_threshold → column r "Full_Name" ≠ NaN)
       ∧ (column r "Date_of_Birth" = NaN →
          DOB_Difference_Days d = 999999
          ∧ (dob_tolerance_days < 999999 → ¬ flagged_by_dob d))
       ∧ (column r "Address" = NaN →
          Address_Similarity d = 0
          ∧ (0 < addr_threshold → ¬ flagged_by_address d))).
Proof.
  cbn zeta. split_and!.
  - intros x. split_and!;
      first [ apply calculate_name_similarity_missing
            | apply calculate_address_similarity_missing
            | apply calculate_dob_difference_missing ]; auto.
  - intros Hwf.
    destruct (detect_duplicates_well_formed df name_threshold
                dob_tolerance_days check_addr addr_threshold Hwf)
      as [c ->]. cbn. eauto.
  - destruct (detect_duplicates_inv df name_threshold dob_tolerance_days
                check_addr addr_threshold) as (st & r' & -> & _ & _ & Hok).
    cbn. intros ds d k r Hds Hd Hk Hpos.
    destruct (Hok ds Hds) as [-> _].
    apply elem_of_entries in Hd as (i & j & r1 & r2 & _ & Hi & Hj & Hd).
    pose proof Hd as (Hgate & [= Hp1 Hp2] & Hn & Hdd & Ha & _)%entry_inv.
    pose proof Hd as (_ & Hrule)%entry_rule.
    assert (Hr : r = r1 ∨ r = r2).
    { destruct Hpos as [Hpos|Hpos]; rewrite Hpos in *; subst k; [left|right];
        congruence. }
    split_and!.
    + intros Hthr Hname.
      assert (Hzero : name_similarity_of r1 r2 = 0%Q).
      { apply calculate_name_similarity_missing.
        destruct Hr as [<-|<-]; auto. }
      rewrite Hzero in Hgate. change 0%Q with (inject_Z 0) in Hgate.
      rewrite <- Zle_Qle in Hgate. lia.
    + intros Hdob.
      assert (Hmax : DOB_Difference_Days d = 999999).
      { rewrite Hdd. apply calculate_dob_difference_missing.
        destruct Hr as [<-|<-]; auto. }
      split; [done|]. intros Htol.
      destruct Hrule as [(? & _)|[(_ & _ & ? & _)|(? & _)]].
      * by apply high_name_not_dob.
      * lia.
      * intros ?. by eapply dob_not_address.
    + intros Haddr.
      assert (Hzero : Address_Similarity d = 0).
      { rewrite Ha. unfold address_similarity_of.
        destruct check_addr; [|done].
        apply calculate_address_similarity_missing.
        destruct Hr as [<-|<-]; auto. }
      split; [done|]. intros Hthr.
      destruct Hrule as [(? & _)|[(? & _)|(_ & _ & _ & _ & ? & _)]].
      * by apply high_name_not_address.
      * by apply dob_not_address.
      * lia.
Qed.

Lemma missing_fields_witness :
  ∃ d,
    (detect_duplicates (lib := Examples.lib) Examples.same_name 85 30 true
       70).2 = Ok [d]
    ∧ DOB_Difference_Days d = 999999
    ∧ ¬ flagged_by_dob (lib := Examples.lib) d
    ∧ Address_Similarity d = 0
    ∧ ¬ flagged_by_address (lib := Examples.lib) d.
Proof.
  destruct (missing_fields (lib := Examples.lib) Examples.same_name 85 30
              true 70) as (_ & _ & Hok).
  eexists. split; [by vm_compute|].
  destruct (Hok _ _ 1%nat Examples.ravi_kumar_only eq_refl
              (list_elem_of_here _ _) eq_refl (or_intror eq_refl))
    as (_ & Hdob & Haddr).
  destruct (Hdob eq_refl) as [Hmax Hrule].
  destruct (Haddr eq_refl) as [Hzero Hrule'].
  split_and!; [done|apply Hrule; lia|done|apply Hrule'; lia].
Defined.

(** C9, as stated, fails: a row without date of birth and without address
    is flagged, by the first rule, with a row of the same name. *)
Lemma missing_dob_and_address_flagged :
  column Examples.ravi_kumar_only "Date_of_Birth" = NaN
  ∧ column Examples.ravi_kumar_only "Address" = NaN
  ∧ ∃ d,
      (detect_duplicates (lib := Examples.lib)
         Examples.same_name 85 30 true 70).2
      = Ok [d]
      ∧ Record_2_Index d = 1%nat.
Proof. split_and!; [by vm_compute..|]. eexists. split; by vm_compute. Qed.

(** ** Bounds on the confidence *)

(** Linear arithmetic on rationals with the divisions by 2 and by 365 of
    the confidence formulas written as multiplications. *)
Ltac lra_confidence :=
  unfold Qdiv in *;
  try change (/ 2)%Q with (1 # 2)%Q in *;
  try change (/ 365)%Q with (1 # 365)%Q in *;
  lra.

Lemma dob_confidence_lower (name_sim : Q) (dob_diff : Z) :
  (50 <= name_sim)%Q → dob_diff ≤ 365 →
  (25 <= (name_sim + (100 - inject_Z dob_diff / 365 * 100)) / 2)%Q.
Proof.
  intros Hn Hd. rewrite Zle_Qle in Hd.
  change (inject_Z 365) with 365%Q in Hd. lra_confidence.
Qed.

Lemma dob_confidence_upper (name_sim : Q) (dob_diff : Z) :
  (name_sim < 95)%Q → 0 ≤ dob_diff →
  ((name_sim + (100 - inject_Z dob_diff / 365 * 100)) / 2 < 97.5)%Q.
Proof.
  intros Hn Hd. rewrite Zle_Qle in Hd.
  change (inject_Z 0) with 0%Q in Hd. lra_confidence.
Qed.

(** C4, as amended. In what a scan returns, an entry that carries the
    reasons of the second rule has a confidence below 97.5, for all
    settings, and every entry has a confidence of at least 25 when the
    settings are in the ranges of the sidebar (name threshold and address
    threshold 50 to 100, tolerance 0 to 365 days). The formula of the
    second rule is negative only for a tolerance above 365 days: with the
    tolerance 1000, name similarity 60 and a difference of 800 days the
    pair is flagged with a negative confidence. *)
Theorem confidence_bounds {lib : External} (df : table)
    (name_threshold dob_tolerance_days : Z) (check_addr : bool)
    (addr_threshold : Z) :
  let run :=
    detect_duplicates df name_threshold dob_tolerance_days check_addr
      addr_threshold in
  (∀ ds d,
     run.2 = Ok ds → d ∈ ds →
     (flagged_by_dob d → (Confidence_Score d < 97.5)%Q)
     ∧ (settings_in_range name_threshold dob_tolerance_days addr_threshold →
        (25 <= Confidence_Score d)%Q))
  ∧ ∃ c,
      classify 50 1000 check_addr addr_threshold 60 800 0 =
        (true, c, [name_reason 60; dob_reason 800])
      ∧ (c < 0)%Q.
Proof.
  cbn zeta. split.
  - destruct (detect_duplicates_inv df name_threshold dob_tolerance_days
                check_addr addr_threshold) as (st & r' & -> & _ & _ & Hok).
    cbn. intros ds d Hds Hd. destruct (Hok ds Hds) as [-> _].
    apply elem_of_entries in Hd as (i & j & r1 & r2 & _ & _ & _ & Hd).
    pose proof Hd as (_ & _ & _ & Hdd & _)%entry_inv.
    pose proof (calculate_dob_difference_nonneg
                  (column r1 "Date_of_Birth") (column r2 "Date_of_Birth"))
      as Hnonneg.
    fold (dob_difference_of r1 r2) in Hnonneg. rewrite <- Hdd in Hnonneg.
    apply entry_rule in Hd as (Hgate & Hrule). split.
    + intros Hdob.
      destruct Hrule as [(? & _)|[(_ & ? & _ & ->)|(? & _)]].
      * by destruct (high_name_not_dob d).
      * by apply dob_confidence_upper.
      * by destruct (dob_not_address d).
    + intros ([Hn _] & [_ Ht] & [Ha _]).
      rewrite Zle_Qle in Hn. change (inject_Z 50) with 50%Q in Hn.
      destruct Hrule as [(_ & ? & ->)|[(_ & _ & ? & ->)
                                      |(_ & _ & _ & _ & Has & ->)]].
      * lra.
      * apply dob_confidence_lower; [lra|lia].
      * assert (Ha' : 50 ≤ Address_Similarity d) by lia.
        rewrite Zle_Qle in Ha'. change (inject_Z 50) with 50%Q in Ha'.
        lra_confidence.
  - eexists. split; [by vm_compute|]. by vm_compute.
Qed.

Lemma confidence_bounds_witness :
  ∃ d,
    (detect_duplicates (lib := Examples.lib) Examples.close_dob 70 30 true
       70).2 = Ok [d]
    ∧ (Confidence_Score d < 97.5)%Q
    ∧ (25 <= Confidence_Score d)%Q.
Proof.
  destruct (confidence_bounds (lib := Examples.lib) Examples.close_dob 70 30
              true 70) as (Hok & _).
  eexists. split; [by vm_compute|].
  destruct (Hok _ _ eq_refl (list_elem_of_here _ _)) as [Hup Hlow].
  split; [apply Hup; by vm_compute|].
  apply Hlow. unfold settings_in_range. lia.
Defined.

(** C4, as stated, fails: with the settings in the ranges of the sidebar
    no pair of rows to which the second rule applies gets a confidence
    below 0, and with no settings does such a pair get a confidence above
    100. *)
Lemma dob_confidence_in_range :
  ¬ (∃ (lib : External) (name_threshold dob_tolerance_days addr_threshold : Z)
       (r1 r2 : row),
       settings_in_range name_threshold dob_tolerance_days addr_threshold
       ∧ (name_similarity_of r1 r2 < 95)%Q
       ∧ (inject_Z name_threshold <= name_similarity_of r1 r2)%Q
       ∧ dob_difference_of r1 r2 ≤ dob_tolerance_days
       ∧ ((name_similarity_of r1 r2
           + (100 - inject_Z (dob_difference_of r1 r2) / 365 * 100)) / 2
          < 0)%Q)
  ∧ ¬ (∃ (lib : External) (r1 r2 : row),
         (name_similarity_of r1 r2 < 95)%Q
         ∧ (100
            < (name_similarity_of r1 r2
               + (100 - inject_Z (dob_difference_of r1 r2) / 365 * 100)) / 2)%Q).
Proof.
  split.
  - intros (lib & nt & dt & at' & r1 & r2 & ([Hn _] & [_ Ht] & _) & _ & Hgate
            & Hd & Hneg).
    rewrite Zle_Qle in Hn. change (inject_Z 50) with 50%Q in Hn.
    assert (Hlow := dob_confidence_lower (name_similarity_of r1 r2)
                      (dob_difference_of r1 r2)).
    cut (25 <= (name_similarity_of r1 r2
                + (100 - inject_Z (dob_difference_of r1 r2) / 365 * 100)) / 2)%Q;
      [lra_confidence|].
    apply Hlow; [lra|lia].
  - intros (lib & r1 & r2 & H95 & Hhigh).
    assert (Hup := dob_confidence_upper (name_similarity_of r1 r2)
                     (dob_difference_of r1 r2) H95
                     (calculate_dob_difference_nonneg _ _)).
    lra_confidence.
Qed.

(** ** Tables without a required column *)

Lemma pairs_short (n : nat) : (n < 2)%nat → pairs n = [].
Proof.
  intros Hn. destruct n as [|[|n]]; [done|done|lia].
Qed.


Section MissingColumn.
Context {lib : External}.
Variable df : table.
Variables name_threshold dob_tolerance_days : Z.
Variable check_addr : bool.
Variable addr_threshold : Z.

Local Abbreviation outcome_of :=
  (outcome df name_threshold dob_tolerance_days check_addr addr_threshold).
Local Abbreviation outcomes_of :=
  (outcomes df name_threshold dob_tolerance_days check_addr addr_threshold).




End MissingColumn.






(** * Further properties of the scan *)

(** ** Which pairs are flagged *)

Section Decision.
Context {lib : External}.
Variable df : table.
Variables name_threshold dob_tolerance_days : Z.
Variable check_addr : bool.
Variable addr_threshold : Z.

Local Abbreviation entry_of :=
  (entry name_threshold dob_tolerance_days check_addr addr_threshold).
Local Abbreviation address_similarity :=
  (address_similarity_of check_addr).

Lemma entry_is_Some (i j : nat) (r1 r2 : row) :
  is_Some (entry_of i j r1 r2) ↔
  (inject_Z name_threshold <= name_similarity_of r1 r2)%Q
  ∧ ((95 <= name_similarity_of r1 r2)%Q
     ∨ dob_difference_of r1 r2 ≤ dob_tolerance_days
     ∨ (check_addr = true ∧ addr_threshold ≤ address_similarity r1 r2)).
Proof.
  split.
  - intros [d Hd]. pose proof Hd as (Hgate & _ & Hn & Hdd & Ha & _)%entry_inv.
    split; [done|].
    apply entry_rule in Hd as (_ & [(_ & ? & _)|[(_ & _ & ? & _)
                                  |(_ & _ & _ & ? & ? & _)]]).
    + left. by rewrite <- Hn.
    + right; left. by rewrite <- Hdd.
    + right; right. by rewrite <- Ha.
  - intros [Hgate Hrule].
    destruct (Qlt_le_dec (name_similarity_of r1 r2) 95) as [H95|H95].
    2: { edestruct entry_intro as (d & -> & _);
           [done|by apply classify_high_name|done]. }
    destruct (decide (dob_difference_of r1 r2 ≤ dob_tolerance_days))
      as [Hd|Hd].
    { edestruct entry_intro as (d & -> & _);
        [done|by apply classify_name_dob|done]. }
    destruct Hrule as [?|[?|[Hc Ha]]]; [by apply Qlt_not_le in H95|done|].
    edestruct entry_intro as (d & -> & _);
      [done|apply classify_name_address; [done..|lia|done|done]|done].
Qed.

(** The entry of a pair of positions in what a scan of a table with the
    four columns returns. *)
Lemma flagged_positions (i j : nat) (r1 r2 : row) :
  well_formed df → (i < j)%nat → df !! i = Some r1 → df !! j = Some r2 →
  ∃ st ds,
    detect_duplicates df name_threshold dob_tolerance_days check_addr
      addr_threshold = (st, Ok ds)
    ∧ ∀ d, d ∈ ds ∧ positions d = (i, j) ↔ entry_of i j r1 r2 = Some d.
Proof.
  intros Hwf Hij Hi Hj.
  destruct (detect_duplicates_well_formed df name_threshold
              dob_tolerance_days check_addr addr_threshold Hwf) as [c ->].
  eexists _, _. split; [done|]. intros d. split.
  - intros [(i' & j' & r1' & r2' & _ & Hi' & Hj' & Hd)%elem_of_entries Hpos].
    pose proof Hd as (_ & Hp & _)%entry_inv.
    rewrite Hp in Hpos. injection Hpos as -> ->. congruence.
  - intros Hd. split.
    + apply elem_of_entries. by exists i, j, r1, r2.
    + by apply entry_inv in Hd as (_ & ? & _).
Qed.

End Decision.

(** X1. In a table with the four required columns, the pair of the rows at
    the positions i < j is in the returned list exactly when its name
    similarity is at least the name threshold and, in addition, the name
    similarity is at least 95, or the dates of birth differ by at most the
    tolerance, or address comparison is enabled and the address similarity
    is at least the address threshold. *)
Theorem flagged_exactly_when {lib : External} (df : table)
    (name_threshold dob_tolerance_days : Z) (check_addr : bool)
    (addr_threshold : Z) (i j : nat) (r1 r2 : row) :
  well_formed df → (i < j)%nat → df !! i = Some r1 → df !! j = Some r2 →
  ∃ st ds,
    detect_duplicates df name_threshold dob_tolerance_days check_addr
      addr_threshold = (st, Ok ds)
    ∧ ((∃ d, d ∈ ds ∧ positions d = (i, j)) ↔
       (inject_Z name_threshold <= name_similarity_of r1 r2)%Q
       ∧ ((95 <= name_similarity_of r1 r2)%Q
          ∨ dob_difference_of r1 r2 ≤ dob_tolerance_days
          ∨ (check_addr = true
             ∧ addr_threshold ≤ address_similarity_of check_addr r1 r2))).
Proof.
  intros Hwf Hij Hi Hj.
  destruct (flagged_positions df name_threshold dob_tolerance_days
              check_addr addr_threshold i j r1 r2 Hwf Hij Hi Hj)
    as (st & ds & Hrun & Hds).
  exists st, ds. split; [done|].
  rewrite <- entry_is_Some. split.
  - intros (d & Hd). exists d. by apply Hds.
  - intros [d Hd]. exists d. by apply Hds.
Qed.

Lemma flagged_exactly_when_witness :
  ∃ st ds,
    detect_duplicates (lib := Examples.lib) Examples.far_dob 70 5 true 80
      = (st, Ok ds)
    ∧ ((∃ d, d ∈ ds ∧ positions d = (0%nat, 1%nat)) ↔
       (inject_Z 70
        <= name_similarity_of (lib := Examples.lib) Examples.ravi
             Examples.ravindra_june)%Q
       ∧ ((95 <= name_similarity_of (lib := Examples.lib) Examples.ravi
                   Examples.ravindra_june)%Q
          ∨ dob_difference_of (lib := Examples.lib) Examples.ravi
              Examples.ravindra_june ≤ 5
          ∨ (true = true
             ∧ 80 ≤ address_similarity_of (lib := Examples.lib) true
                      Examples.ravi Examples.ravindra_june))).
Proof.
  apply (flagged_exactly_when (lib := Examples.lib) Examples.far_dob 70 5
           true 80 0 1 Examples.ravi Examples.ravindra_june).
  - apply example_well_formed_two.
  - lia.
  - reflexivity.
  - reflexivity.
Defined.

(** X2. In a table with the four required columns, a pair whose name
    similarity is below 95 and at least the name threshold, whose dates of
    birth differ by more than the tolerance and whose address similarity,
    with address comparison enabled, is at least the address threshold is
    flagged with the confidence (name similarity + address similarity) / 2
    and the reasons "Name similarity (<value>%) | Address similarity
    (<value>%)", both values formatted with one decimal. *)
Theorem similar_name_similar_address_flagged {lib : External} (df : table)
    (name_threshold dob_tolerance_days addr_threshold : Z) (i j : nat)
    (r1 r2 : row) :
  well_formed df → (i < j)%nat → df !! i = Some r1 → df !! j = Some r2 →
  (name_similarity_of r1 r2 < 95)%Q →
  (inject_Z name_threshold <= name_similarity_of r1 r2)%Q →
  dob_tolerance_days < dob_difference_of r1 r2 →
  addr_threshold ≤ address_similarity_of true r1 r2 →
  ∃ st ds d,
    detect_duplicates df name_threshold dob_tolerance_days true
      addr_threshold = (st, Ok ds)
    ∧ d ∈ ds ∧ positions d = (i, j)
    ∧ Address_Similarity d =
        calculate_address_similarity (column r1 "Address")
          (column r2 "Address")
    ∧ Confidence_Score d =
        ((name_similarity_of r1 r2
          + inject_Z (address_similarity_of true r1 r2)) / 2)%Q
    ∧ Detection_Reasons d =
        (("Name similarity (" ++ format_1f (name_similarity_of r1 r2)
          ++ "%)") ++ " | "
         ++ ("Address similarity ("
             ++ format_1f (inject_Z (address_similarity_of true r1 r2))
             ++ "%)"))%string.
Proof.
  intros Hwf Hij Hi Hj H95 Hgate Hdob Haddr.
  destruct (classified_pair_flagged df name_threshold dob_tolerance_days
              true addr_threshold i j r1 r2 _ _ Hwf Hij Hi Hj Hgate
              (classify_name_address _ _ _ _ _ _ _ H95 Hgate Hdob eq_refl
                 Haddr))
    as (st & ds & d & Hrun & Hin & Hpos & _ & _ & Ha & Hc & Hrs).
  by exists st, ds, d.
Qed.

Lemma similar_name_similar_address_flagged_witness :
  ∃ st ds d,
    detect_duplicates (lib := Examples.lib) Examples.far_dob 70 5 true 80
      = (st, Ok ds)
    ∧ d ∈ ds ∧ positions d = (0%nat, 1%nat)
    ∧ Address_Similarity d =
        calculate_address_similarity (lib := Examples.lib)
          (column Examples.ravi "Address")
          (column Examples.ravindra_june "Address")
    ∧ Confidence_Score d =
        ((name_similarity_of (lib := Examples.lib) Examples.ravi
            Examples.ravindra_june
          + inject_Z (address_similarity_of (lib := Examples.lib) true
                        Examples.ravi Examples.ravindra_june)) / 2)%Q
    ∧ Detection_Reasons d =
        (("Name similarity ("
          ++ format_1f (External := Examples.lib)
               (name_similarity_of (lib := Examples.lib) Examples.ravi
                  Examples.ravindra_june)
          ++ "%)") ++ " | "
         ++ ("Address similarity ("
             ++ format_1f (External := Examples.lib)
                  (inject_Z (address_similarity_of (lib := Examples.lib)
                               true Examples.ravi Examples.ravindra_june))
             ++ "%)"))%string.
Proof.
  apply (similar_name_similar_address_flagged (lib := Examples.lib)
           Examples.far_dob 70 5 80 0 1 Examples.ravi
           Examples.ravindra_june).
  - apply example_well_formed_two.
  - lia.
  - reflexivity.
  - reflexivity.
  - by vm_compute.
  - by vm_compute.
  - by vm_compute.
  - by vm_compute.
Defined.

(** ** What an entry reports and in which order *)

Lemma entry_fields {lib : External}
    (name_threshold dob_tolerance_days : Z) (check_addr : bool)
    (addr_threshold : Z) (i j : nat) (r1 r2 : row) (d : duplicate) :
  entry name_threshold dob_tolerance_days check_addr addr_threshold i j
    r1 r2 = Some d →
  Voter_ID_1 d = column r1 "Voter_ID" ∧ Voter_ID_2 d = column r2 "Voter_ID"
  ∧ Name_1 d = column r1 "Full_Name" ∧ Name_2 d = column r2 "Full_Name"
  ∧ DOB_1 d = column r1 "Date_of_Birth"
  ∧ DOB_2 d = column r2 "Date_of_Birth"
  ∧ Address_1 d = column r1 "Address" ∧ Address_2 d = column r2 "Address".
Proof.
  unfold entry. destruct (Qltb _ _); [done|].
  destruct (classify _ _ _ _ _ _ _) as [[[] c] rs]; [|done].
  by intros [= <-].
Qed.

(** X3. Every entry that a scan returns reports two rows of the table:
    its positions are positions i < j of the table, its eight record
    fields are the cells of the rows at these positions, and its name
    similarity and date-of-birth difference are the metrics of these
    cells. *)
Theorem entries_report_rows {lib : External} (df : table)
    (name_threshold dob_tolerance_days : Z) (check_addr : bool)
    (addr_threshold : Z) (ds : list duplicate) (d : duplicate) :
  (detect_duplicates df name_threshold dob_tolerance_days check_addr
     addr_threshold).2 = Ok ds →
  d ∈ ds →
  ∃ r1 r2,
    (Record_1_Index d < Record_2_Index d)%nat
    ∧ df !! Record_1_Index d = Some r1 ∧ df !! Record_2_Index d = Some r2
    ∧ Voter_ID_1 d = column r1 "Voter_ID"
    ∧ Voter_ID_2 d = column r2 "Voter_ID"
    ∧ Name_1 d = column r1 "Full_Name" ∧ Name_2 d = column r2 "Full_Name"
    ∧ DOB_1 d = column r1 "Date_of_Birth"
    ∧ DOB_2 d = column r2 "Date_of_Birth"
    ∧ Address_1 d = column r1 "Address" ∧ Address_2 d = column r2 "Address"
    ∧ Name_Similarity d = calculate_name_similarity (Name_1 d) (Name_2 d)
    ∧ DOB_Difference_Days d = calculate_dob_difference (DOB_1 d) (DOB_2 d).
Proof.
  destruct (detect_duplicates_inv df name_threshold dob_tolerance_days
              check_addr addr_threshold) as (st & r & -> & _ & _ & Hok).
  cbn. intros Hds Hd. destruct (Hok ds Hds) as [-> _].
  apply elem_of_entries in Hd as (i & j & r1 & r2 & Hij & Hi & Hj & Hd).
  pose proof Hd as (_ & [= -> ->] & Hn & Hdd & _)%entry_inv.
  pose proof Hd as (? & ? & Hn1 & Hn2 & Hd1 & Hd2 & ? & ?)%entry_fields.
  exists r1, r2. rewrite Hn, Hdd, Hn1, Hn2, Hd1, Hd2.
  split_and!; done.
Qed.

Lemma entries_report_rows_witness :
  ∃ d r1 r2,
    (Record_1_Index d < Record_2_Index d)%nat
    ∧ Examples.two_spellings !! Record_1_Index d = Some r1
    ∧ Examples.two_spellings !! Record_2_Index d = Some r2
    ∧ Voter_ID_1 d = column r1 "Voter_ID"
    ∧ Voter_ID_2 d = column r2 "Voter_ID"
    ∧ Name_1 d = column r1 "Full_Name" ∧ Name_2 d = column r2 "Full_Name"
    ∧ DOB_1 d = column r1 "Date_of_Birth"
    ∧ DOB_2 d = column r2 "Date_of_Birth"
    ∧ Address_1 d = column r1 "Address" ∧ Address_2 d = column r2 "Address"
    ∧ Name_Similarity d =
        calculate_name_similarity (lib := Examples.lib) (Name_1 d) (Name_2 d)
    ∧ DOB_Difference_Days d =
        calculate_dob_difference (lib := Examples.lib) (DOB_1 d) (DOB_2 d).
Proof.
  eexists.
  eapply (entries_report_rows (lib := Examples.lib) Examples.two_spellings
            85 30 true 70).
  - by vm_compute.
  - by left.
Defined.

Lemma StronglySorted_pairs_of (g : nat → list nat) (l : list nat) :
  StronglySorted lt l → (∀ i, StronglySorted lt (g i)) →
  StronglySorted pair_lt (flat_map (λ i, map (λ j, (i, j)) (g i)) l).
Proof.
  intros Hl Hg. induction Hl as [|i l Hl IH Hi]; cbn; [constructor|].
  apply StronglySorted_app_2; [| |done].
  - intros [i1 j1] [i2 j2] (? & [= -> ->] & _)%list_elem_of_fmap
      (i' & Hi' & Hin)%list_elem_of_In%in_flat_map.
    apply list_elem_of_In, list_elem_of_fmap in Hin as (? & [= -> ->] & _).
    left. cbn. rewrite Forall_forall in Hi. by apply Hi, list_elem_of_In.
  - eapply StronglySorted_fmap; [|apply Hg]. intros x y Hxy. right. by cbn.
Qed.

Lemma StronglySorted_seq (a k : nat) : StronglySorted lt (seq a k).
Proof.
  revert a. induction k as [|k IH]; intros a; cbn; constructor; [done|].
  apply Forall_forall. intros x Hx%elem_of_seq. lia.
Qed.

Lemma StronglySorted_pairs (n : nat) : StronglySorted pair_lt (pairs n).
Proof.
  apply StronglySorted_pairs_of; [|intros i]; apply StronglySorted_seq.
Qed.

Lemma StronglySorted_omap {A B} (R : relation A) (f : A → option B)
    (g : B → A) (l : list A) :
  (∀ x y, f x = Some y → g y = x) →
  StronglySorted R l → StronglySorted R (g <$> omap f l).
Proof.
  intros Hfg. induction 1 as [|x l Hl IH Hx]; cbn; [constructor|].
  destruct (f x) as [y|] eqn:Hy; [|done]. cbn. constructor; [done|].
  rewrite (Hfg x y Hy). apply Forall_forall.
  intros ? (y' & -> & (x' & Hx' & Hy')%list_elem_of_omap)%list_elem_of_fmap.
  rewrite (Hfg x' y' Hy'). rewrite Forall_forall in Hx. by apply Hx.
Qed.

(** X4. The returned entries are in the order of the loops: their pairs of
    positions increase strictly in the lexicographic order, first by the
    first position, then by the second. *)
Theorem entries_in_loop_order {lib : External} (df : table)
    (name_threshold dob_tolerance_days : Z) (check_addr : bool)
    (addr_threshold : Z) (ds : list duplicate) :
  (detect_duplicates df name_threshold dob_tolerance_days check_addr
     addr_threshold).2 = Ok ds →
  StronglySorted pair_lt (positions <$> ds).
Proof.
  destruct (detect_duplicates_inv df name_threshold dob_tolerance_days
              check_addr addr_threshold) as (st & r & -> & _ & _ & Hok).
  cbn. intros Hds. destruct (Hok ds Hds) as [-> _].
  apply StronglySorted_omap; [|apply StronglySorted_pairs].
  intros [i j] d. unfold entry_at. cbn.
  destruct (df !! i) as [r1|], (df !! j) as [r2|]; try done.
  intros Hd. by apply entry_inv in Hd as (_ & ? & _).
Qed.

Lemma entries_in_loop_order_witness :
  ∃ ds,
    (detect_duplicates (lib := Examples.lib)
       (Examples.two_spellings ++ Examples.two_spellings) 85 30 true 70).2
    = Ok ds
    ∧ length ds = 6%nat
    ∧ StronglySorted pair_lt (positions <$> ds).
Proof.
  eexists. split; [by vm_compute|]. split; [done|].
  apply (entries_in_loop_order (lib := Examples.lib)
           (Examples.two_spellings ++ Examples.two_spellings) 85 30 true 70).
  by vm_compute.
Defined.

(** ** Which metrics are computed *)

Lemma elem_of_events {lib : External} (name_threshold : Z)
    (check_addr : bool) (i j : nat) (r1 r2 : row) (e : event) :
  e ∈ events name_threshold check_addr i j r1 r2 ↔
  e = NameSimilarityCall i j
  ∨ ((inject_Z name_threshold <= name_similarity_of r1 r2)%Q
     ∧ (e = DobDifferenceCall i j
        ∨ (check_addr = true ∧ e = AddressSimilarityCall i j))).
Proof.
  unfold events. rewrite elem_of_cons.
  destruct (Qltb _ _) eqn:Hgate.
  - apply Qltb_true in Hgate. rewrite elem_of_nil. split; [tauto|].
    intros [?|[Hle _]]; [tauto|]. by apply Qlt_not_le in Hgate.
  - apply Qltb_false in Hgate. rewrite elem_of_cons.
    destruct check_addr.
    + rewrite list_elem_of_singleton. tauto.
    + rewrite elem_of_nil. split; [tauto|].
      intros [?|[_ [?|[? _]]]]; [tauto|tauto|done].
Qed.

(** X5. The date-of-birth difference and the address similarity are
    computed only for pairs of rows whose name similarity is at least the
    name threshold, the address similarity only when address comparison is
    enabled; this holds on every table, also when the scan raises. When
    the scan returns, the date-of-birth difference has been computed for
    every pair of positions i < j whose name similarity is at least the
    threshold. *)
Theorem metrics_computed_lazily {lib : External} (df : table)
    (name_threshold dob_tolerance_days : Z) (check_addr : bool)
    (addr_threshold : Z) :
  let run :=
    detect_duplicates df name_threshold dob_tolerance_days check_addr
      addr_threshold in
  (∀ i j,
     DobDifferenceCall i j ∈ trace run.1
     ∨ AddressSimilarityCall i j ∈ trace run.1 →
     ∃ r1 r2, df !! i = Some r1 ∧ df !! j = Some r2
              ∧ (inject_Z name_threshold <= name_similarity_of r1 r2)%Q)
  ∧ (∀ i j, AddressSimilarityCall i j ∈ trace run.1 → check_addr = true)
  ∧ (∀ ds i j r1 r2,
       run.2 = Ok ds → (i < j)%nat →
       df !! i = Some r1 → df !! j = Some r2 →
       (inject_Z name_threshold <= name_similarity_of r1 r2)%Q →
       DobDifferenceCall i j ∈ trace run.1
       ∧ (check_addr = true → AddressSimilarityCall i j ∈ trace run.1)).
Proof.
  cbn zeta.
  destruct (detect_duplicates_inv df name_threshold dob_tolerance_days
              check_addr addr_threshold) as (st & r & -> & _ & Htr & Hok).
  cbn.
  assert (Hin : ∀ e, e ∈ trace st →
            ∃ i j r1 r2, df !! i = Some r1 ∧ df !! j = Some r2
              ∧ e ∈ events name_threshold check_addr i j r1 r2).
  { intros e He. eapply elem_of_prefix in He; [|exact Htr].
    apply list_elem_of_In, in_flat_map in He as ([i j] & _ & He).
    unfold events_at in He. cbn in He.
    destruct (df !! i) as [r1|] eqn:Hi; [|done].
    destruct (df !! j) as [r2|] eqn:Hj; [|done].
    exists i, j, r1, r2. by rewrite <- list_elem_of_In in He. }
  split_and!.
  - intros i j [He|He];
      apply Hin in He as (i' & j' & r1 & r2 & Hi & Hj & He);
      apply elem_of_events in He as [?|[Hgate [[= -> ->]|[_ [= -> ->]]]]];
      try done; eauto.
  - intros i j He. apply Hin in He as (i' & j' & r1 & r2 & _ & _ & He).
    by apply elem_of_events in He as [?|[_ [?|[? _]]]].
  - intros ds i j r1 r2 Hds Hij Hi Hj Hgate.
    destruct (Hok ds Hds) as [_ ->].
    assert (Hp : (i, j) ∈ pairs (length df)).
    { apply elem_of_pairs. apply lookup_lt_Some in Hj. lia. }
    assert (Hev : ∀ e, e ∈ events name_threshold check_addr i j r1 r2 →
              e ∈ flat_map (events_at df name_threshold check_addr)
                    (pairs (length df))).
    { intros e He. apply list_elem_of_In, in_flat_map. exists (i, j).
      split; [by apply list_elem_of_In|].
      unfold events_at. cbn. rewrite Hi, Hj. by apply list_elem_of_In. }
    split; [|intros Hc]; apply Hev, elem_of_events; right; auto.
Qed.

Lemma metrics_computed_lazily_witness :
  DobDifferenceCall 0 1
  ∈ trace (detect_duplicates (lib := Examples.lib) Examples.two_spellings
             85 30 true 70).1
  ∧ (true = true →
     AddressSimilarityCall 0 1
     ∈ trace (detect_duplicates (lib := Examples.lib)
                Examples.two_spellings 85 30 true 70).1).
Proof.
  destruct (metrics_computed_lazily (lib := Examples.lib)
              Examples.two_spellings 85 30 true 70) as (_ & _ & H).
  eapply (H _ 0%nat 1%nat Examples.ravi_kumar Examples.ravi_kumarr).
  - by vm_compute.
  - lia.
  - reflexivity.
  - reflexivity.
  - by vm_compute.
Defined.

(** ** The summary of the main script *)

Lemma Qpos_of_nat (n : nat) : (0 < n)%nat → (0 < inject_Z (Z.of_nat n))%Q.
Proof.
  intros Hn. change 0%Q with (inject_Z 0). rewrite <- Zlt_Qlt. lia.
Qed.

Lemma sum_le (l : list Q) (hi : Q) :
  Forall (λ x, (x <= hi)%Q) l →
  (foldr Qplus 0 l <= hi * inject_Z (Z.of_nat (length l)))%Q.
Proof.
  induction 1 as [|x l Hhi _ IH]; cbn [foldr length].
  - change (inject_Z (Z.of_nat 0)) with 0%Q. lra.
  - rewrite Nat2Z.inj_succ, <- Z.add_1_r, inject_Z_plus.
    change (inject_Z 1) with 1%Q. lra.
Qed.

Lemma sum_ge (l : list Q) (lo : Q) :
  Forall (λ x, (lo <= x)%Q) l →
  (lo * inject_Z (Z.of_nat (length l)) <= foldr Qplus 0 l)%Q.
Proof.
  induction 1 as [|x l Hlo _ IH]; cbn [foldr length].
  - change (inject_Z (Z.of_nat 0)) with 0%Q. lra.
  - rewrite Nat2Z.inj_succ, <- Z.add_1_r, inject_Z_plus.
    change (inject_Z 1) with 1%Q. lra.
Qed.

(** The mean of a column lies between a lower and an upper bound of its
    values. *)
Lemma mean_le (l : list Q) (hi : Q) :
  l ≠ [] → Forall (λ x, (x <= hi)%Q) l → (mean l <= hi)%Q.
Proof.
  intros Hne Hl. unfold mean. apply Qle_shift_div_r; [|by apply sum_le].
  apply Qpos_of_nat. destruct l; [done|cbn; lia].
Qed.

Lemma mean_ge (l : list Q) (lo : Q) :
  l ≠ [] → Forall (λ x, (lo <= x)%Q) l → (lo <= mean l)%Q.
Proof.
  intros Hne Hl. unfold mean. apply Qle_shift_div_l; [|by apply sum_ge].
  apply Qpos_of_nat. destruct l; [done|cbn; lia].
Qed.

Lemma size_list_to_set_le (l : list cell) :
  (size (list_to_set l : gset cell) ≤ length l)%nat.
Proof.
  induction l as [|x l IH]; cbn; [by rewrite size_empty|].
  rewrite size_union_alt, size_singleton.
  assert (Hsub : list_to_set l ∖ {[x]} ⊆ (list_to_set l : gset cell)).
  { intros y Hy%elem_of_difference. tauto. }
  apply subseteq_size in Hsub. lia.
Qed.

Section Summary.
Context {lib : External}.
Variable df : table.
Variables name_threshold dob_tolerance_days : Z.
Variable check_addr : bool.
Variable addr_threshold : Z.
Variable ds : list duplicate.
Hypothesis returned :
  (detect_duplicates df name_threshold dob_tolerance_days check_addr
     addr_threshold).2 = Ok ds.

Lemma returned_entries :
  ds = omap (entry_at df name_threshold dob_tolerance_days check_addr
               addr_threshold) (pairs (length df)).
Proof.
  destruct (detect_duplicates_inv df name_threshold dob_tolerance_days
              check_addr addr_threshold) as (st & r & Hrun & _ & _ & Hok).
  rewrite Hrun in returned. by destruct (Hok ds returned).
Qed.

Lemma returned_entry (d : duplicate) :
  d ∈ ds →
  ∃ i j r1 r2,
    (i < j)%nat ∧ df !! i = Some r1 ∧ df !! j = Some r2
    ∧ entry name_threshold dob_tolerance_days check_addr addr_threshold
        i j r1 r2 = Some d.
Proof. rewrite returned_entries. apply elem_of_entries. Qed.

Lemma returned_nonempty : ds ≠ [] → (2 ≤ length df)%nat.
Proof.
  intros Hne. destruct (decide (length df < 2)%nat) as [Hn|]; [|lia].
  rewrite returned_entries, (pairs_short _ Hn) in Hne. done.
Qed.

Lemma unique_duplicates_le_records :
  (unique_duplicates ds ≤ length df)%nat.
Proof.
  unfold unique_duplicates.
  etrans; [|etrans; [apply (size_list_to_set_le
                              ((λ r, column r "Voter_ID") <$> df))|]].
  2: by rewrite length_fmap.
  apply subseteq_size. intros x.
  rewrite !elem_of_list_to_set, elem_of_app, !list_elem_of_fmap.
  intros [(d & -> & Hd)|(d & -> & Hd)];
    apply returned_entry in Hd as (i & j & r1 & r2 & _ & Hi & Hj & Hd);
    apply entry_fields in Hd as (Hv1 & Hv2 & _).
  - exists r1. split; [done|]. by eapply list_elem_of_lookup_2.
  - exists r2. split; [done|]. by eapply list_elem_of_lookup_2.
Qed.

End Summary.

(** X6. The summary is computed only for a returned list that is not
    empty, and then the table has at least two rows: the division by the
    number of rows never raises, for no table and no settings; for an
    empty list the main script shows the message that nothing was
    found. *)
Theorem summary_never_divides_by_zero {lib : External} (df : table)
    (name_threshold dob_tolerance_days : Z) (check_addr : bool)
    (addr_threshold : Z) (ds : list duplicate) :
  (detect_duplicates df name_threshold dob_tolerance_days check_addr
     addr_threshold).2 = Ok ds →
  report_of df ds ≠ ZeroDivisionError
  ∧ (ds ≠ [] → (2 ≤ length df)%nat)
  ∧ (ds = [] ↔ report_of df ds = NoDuplicates).
Proof.
  intros Hds.
  pose proof (returned_nonempty df name_threshold dob_tolerance_days
                check_addr addr_threshold ds Hds) as Hne.
  unfold report_of. destruct ds as [|d ds']; cbn [length Nat.ltb Nat.leb].
  - done.
  - destruct (length df =? 0)%nat eqn:Hn.
    + apply Nat.eqb_eq in Hn. specialize (Hne ltac:(done)). lia.
    + split_and!; [done|done|]. split; done.
Qed.

Lemma summary_never_divides_by_zero_witness :
  ∃ ds,
    (detect_duplicates (lib := Examples.lib) Examples.two_spellings 85 30
       true 70).2 = Ok ds
    ∧ report_of Examples.two_spellings ds ≠ ZeroDivisionError
    ∧ (ds ≠ [] → (2 ≤ length Examples.two_spellings)%nat)
    ∧ (ds = [] ↔ report_of Examples.two_spellings ds = NoDuplicates).
Proof.
  eexists. split; [by vm_compute|].
  apply (summary_never_divides_by_zero (lib := Examples.lib)
           Examples.two_spellings 85 30 true 70).
  by vm_compute.
Defined.

(** X7. In the summary of what a scan returns, for a table in which no
    [Voter_ID] is missing: the number of potential duplicates is at least
    1, at most the number of rows of the table and at most twice the
    number of returned entries, and the duplicate percentage is above 0
    and at most 100. *)
Theorem summary_counts {lib : External} (df : table)
    (name_threshold dob_tolerance_days : Z) (check_addr : bool)
    (addr_threshold : Z) (ds : list duplicate)
    (total unique : nat) (percentage avg : Q) :
  Forall (λ r, column r "Voter_ID" ≠ NaN) df →
  (detect_duplicates df name_threshold dob_tolerance_days check_addr
     addr_threshold).2 = Ok ds →
  report_of df ds = Statistics total unique percentage avg →
  total = length df
  ∧ (1 ≤ unique ≤ total)%nat ∧ (unique ≤ 2 * length ds)%nat
  ∧ (0 < percentage)%Q ∧ (percentage <= 100)%Q.
Proof.
  intros _ Hds. unfold report_of.
  destruct (0 <? length ds)%nat eqn:Hlen; [|done].
  apply Nat.ltb_lt in Hlen.
  destruct (length df =? 0)%nat eqn:Hn; [done|]. apply Nat.eqb_neq in Hn.
  intros [= <- <- <- <-].
  pose proof (unique_duplicates_le_records df name_threshold
                dob_tolerance_days check_addr addr_threshold ds Hds) as Hle.
  assert (Hpos : (1 ≤ unique_duplicates ds)%nat).
  { destruct ds as [|d ds']; [cbn in Hlen; lia|].
    unfold unique_duplicates.
    assert (Hin : Voter_ID_1 d
                  ∈ (list_to_set ((Voter_ID_1 <$> d :: ds')
                                  ++ (Voter_ID_2 <$> d :: ds')) : gset cell)).
    { apply elem_of_list_to_set. left. }
    set (ids := list_to_set _) in *.
    enough (size ids ≠ 0)%nat by lia.
    apply size_non_empty_iff. intros Hempty. apply Hempty in Hin.
    by apply not_elem_of_empty in Hin. }
  assert (Htwice : (unique_duplicates ds ≤ 2 * length ds)%nat).
  { unfold unique_duplicates. etrans; [apply size_list_to_set_le|].
    rewrite length_app, !length_fmap. lia. }
  split_and!; [done|done|done|done| |].
  - apply Qmult_lt_0_compat; [|done].
    apply Qlt_shift_div_l; [apply Qpos_of_nat; lia|].
    rewrite Qmult_0_l. apply Qpos_of_nat. lia.
  - assert (Hfrac : (inject_Z (Z.of_nat (unique_duplicates ds))
                     / inject_Z (Z.of_nat (length df)) <= 1)%Q).
    { apply Qle_shift_div_r; [apply Qpos_of_nat; lia|].
      rewrite Qmult_1_l, <- Zle_Qle. lia. }
    set (x := (inject_Z (Z.of_nat (unique_duplicates ds))
               / inject_Z (Z.of_nat (length df)))%Q) in *.
    lra.
Qed.

Lemma summary_counts_witness :
  ∃ ds percentage avg,
    (detect_duplicates (lib := Examples.lib) Examples.two_spellings 85 30
       true 70).2 = Ok ds
    ∧ report_of Examples.two_spellings ds = Statistics 2 2 percentage avg
    ∧ 2%nat = length Examples.two_spellings
    ∧ (1 ≤ 2 ≤ 2)%nat ∧ (2 ≤ 2 * length ds)%nat
    ∧ (0 < percentage)%Q ∧ (percentage <= 100)%Q.
Proof.
  eexists _, _, _. split; [by vm_compute|]. split; [by vm_compute|].
  eapply (summary_counts (lib := Examples.lib) Examples.two_spellings 85 30
            true 70).
  - repeat constructor; by vm_compute.
  - by vm_compute.
  - by vm_compute.
Defined.

(** ** The range of the similarities and of the confidence *)

Section Ranges.
Context {lib : External}.
Hypothesis in_range : scores_in_range.

Lemma score_in_range (f : string → string → Z) (a b : string) :
  f ∈ [fuzz_ratio; fuzz_partial_ratio; fuzz_token_sort_ratio;
       fuzz_token_set_ratio] →
  (0 <= inject_Z (f a b))%Q ∧ (inject_Z (f a b) <= 100)%Q.
Proof.
  intros Hf. destruct (in_range f Hf a b) as [H0 H100].
  rewrite Zle_Qle in H0, H100. done.
Qed.

Lemma calculate_name_similarity_range (name1 name2 : cell) :
  (0 <= calculate_name_similarity name1 name2)%Q
  ∧ (calculate_name_similarity name1 name2 <= 100)%Q.
Proof.
  unfold calculate_name_similarity.
  destruct (isna name1 || isna name2); [split; lra|]. cbn zeta.
  set (a := upper (strip (str name1))). set (b := upper (strip (str name2))).
  destruct (score_in_range fuzz_ratio a b) as [? ?];
    [repeat constructor|].
  destruct (score_in_range fuzz_partial_ratio a b) as [? ?];
    [repeat constructor|].
  destruct (score_in_range fuzz_token_sort_ratio a b) as [? ?];
    [repeat constructor|].
  destruct (score_in_range fuzz_token_set_ratio a b) as [? ?];
    [repeat constructor|].
  split; lra.
Qed.

Lemma calculate_address_similarity_range (addr1 addr2 : cell) :
  0 ≤ calculate_address_similarity addr1 addr2 ≤ 100.
Proof.
  unfold calculate_address_similarity.
  destruct (isna addr1 || isna addr2); [lia|].
  apply in_range. repeat constructor.
Qed.

Lemma entry_ranges (name_threshold dob_tolerance_days : Z)
    (check_addr : bool) (addr_threshold : Z) (i j : nat) (r1 r2 : row)
    (d : duplicate) :
  entry name_threshold dob_tolerance_days check_addr addr_threshold i j
    r1 r2 = Some d →
  (0 <= Name_Similarity d)%Q ∧ (Name_Similarity d <= 100)%Q
  ∧ 0 ≤ Address_Similarity d ≤ 100
  ∧ 0 ≤ DOB_Difference_Days d
  ∧ (Confidence_Score d <= 100)%Q.
Proof.
  intros Hd. pose proof Hd as (_ & _ & Hn & Hdd & Ha & _)%entry_inv.
  destruct (calculate_name_similarity_range (column r1 "Full_Name")
              (column r2 "Full_Name")) as [Hn0 Hn100].
  fold (name_similarity_of r1 r2) in Hn0, Hn100. rewrite <- Hn in Hn0, Hn100.
  assert (Haddr : 0 ≤ Address_Similarity d ≤ 100).
  { rewrite Ha. unfold address_similarity_of.
    destruct check_addr; [apply calculate_address_similarity_range|lia]. }
  assert (Hdob : 0 ≤ DOB_Difference_Days d).
  { rewrite Hdd. apply calculate_dob_difference_nonneg. }
  split_and!; [done|done|lia|lia|done|].
  apply entry_rule in Hd as (_ & [(_ & _ & ->)|[(_ & ? & _ & ->)
                                 |(_ & _ & _ & _ & _ & ->)]]).
  - done.
  - apply Qlt_le_weak. eapply Qlt_trans; [by apply dob_confidence_upper|].
    by vm_compute.
  - destruct Haddr as [_ Haddr]. rewrite Zle_Qle in Haddr.
    change (inject_Z 100) with 100%Q in Haddr. lra_confidence.
Qed.

End Ranges.

Lemma entry_confidence_lower {lib : External}
    (name_threshold dob_tolerance_days : Z) (check_addr : bool)
    (addr_threshold : Z) (i j : nat) (r1 r2 : row) (d : duplicate) :
  settings_in_range name_threshold dob_tolerance_days addr_threshold →
  entry name_threshold dob_tolerance_days check_addr addr_threshold i j
    r1 r2 = Some d →
  (25 <= Confidence_Score d)%Q.
Proof.
  intros ([Hn _] & [_ Ht] & [Ha _]) Hd.
  rewrite Zle_Qle in Hn. change (inject_Z 50) with 50%Q in Hn.
  apply entry_rule in Hd
    as (Hgate & [(_ & ? & ->)|[(_ & _ & ? & ->)|(_ & _ & _ & _ & ? & ->)]]).
  - lra.
  - apply dob_confidence_lower; [lra|lia].
  - assert (Ha' : 50 ≤ Address_Similarity d) by lia.
    rewrite Zle_Qle in Ha'. change (inject_Z 50) with 50%Q in Ha'.
    lra_confidence.
Qed.

(** X8. When the four fuzzy measures give scores from 0 to 100, every
    entry that a scan returns has a name similarity and an address
    similarity from 0 to 100 and a confidence of at most 100, for all
    settings, and the average confidence of the summary is at most 100;
    with the settings in the ranges of the sidebar the average confidence
    is at least 25. *)
Theorem confidence_at_most_100 {lib : External} (df : table)
    (name_threshold dob_tolerance_days : Z) (check_addr : bool)
    (addr_threshold : Z) (ds : list duplicate) :
  scores_in_range →
  (detect_duplicates df name_threshold dob_tolerance_days check_addr
     addr_threshold).2 = Ok ds →
  (∀ d, d ∈ ds →
     (0 <= Name_Similarity d)%Q ∧ (Name_Similarity d <= 100)%Q
     ∧ 0 ≤ Address_Similarity d ≤ 100
     ∧ (Confidence_Score d <= 100)%Q)
  ∧ (∀ total unique percentage avg,
       report_of df ds = Statistics total unique percentage avg →
       (avg <= 100)%Q
       ∧ (settings_in_range name_threshold dob_tolerance_days
            addr_threshold → (25 <= avg)%Q)).
Proof.
  intros Hscores Hds.
  assert (Hentry : ∀ d, d ∈ ds →
            (0 <= Name_Similarity d)%Q ∧ (Name_Similarity d <= 100)%Q
            ∧ 0 ≤ Address_Similarity d ≤ 100
            ∧ (Confidence_Score d <= 100)%Q).
  { intros d Hd.
    apply (returned_entry df name_threshold dob_tolerance_days check_addr
             addr_threshold ds Hds) in Hd
      as (i & j & r1 & r2 & _ & _ & _ & Hd).
    apply (entry_ranges Hscores) in Hd as (? & ? & ? & _ & ?). done. }
  split; [done|].
  intros total unique percentage avg. unfold report_of.
  destruct (0 <? length ds)%nat eqn:Hlen; [|done].
  apply Nat.ltb_lt in Hlen.
  destruct (length df =? 0)%nat; [done|]. intros [= _ _ _ <-].
  assert (Hne : Confidence_Score <$> ds ≠ []).
  { destruct ds; [cbn in Hlen; lia|done]. }
  split.
  - apply mean_le; [done|]. apply Forall_fmap, Forall_forall.
    intros d Hd. by apply Hentry.
  - intros Hrange. apply mean_ge; [done|]. apply Forall_fmap, Forall_forall.
    intros d Hd. cbn.
    apply (returned_entry df name_threshold dob_tolerance_days check_addr
             addr_threshold ds Hds) in Hd
      as (i & j & r1 & r2 & _ & _ & _ & Hd).
    by apply (entry_confidence_lower name_threshold dob_tolerance_days
                check_addr addr_threshold i j r1 r2).
Qed.

Lemma example_scores_in_range : scores_in_range (lib := Examples.lib).
Proof.
  intros f Hf a b.
  assert (Hscore : ∀ close near, 0 ≤ close ≤ 100 → 0 ≤ near ≤ 100 →
            0 ≤ Examples.score close near a b ≤ 100).
  { intros close near ??. unfold Examples.score.
    destruct (String.eqb a b); [lia|].
    destruct (Examples.listed _ _ a b); [lia|].
    destruct (Examples.listed _ _ a b); lia. }
  repeat (apply elem_of_cons in Hf as [->|Hf]; [apply Hscore; lia|]).
  by apply elem_of_nil in Hf.
Qed.

Lemma confidence_at_most_100_witness :
  ∃ ds,
    (detect_duplicates (lib := Examples.lib) Examples.close_dob 70 30 true
       70).2 = Ok ds
    ∧ (∀ d, d ∈ ds →
         (0 <= Name_Similarity d)%Q ∧ (Name_Similarity d <= 100)%Q
         ∧ 0 ≤ Address_Similarity d ≤ 100
         ∧ (Confidence_Score d <= 100)%Q)
    ∧ (∀ total unique percentage avg,
         report_of Examples.close_dob ds
         = Statistics total unique percentage avg →
         (avg <= 100)%Q
         ∧ (settings_in_range 70 30 70 → (25 <= avg)%Q)).
Proof.
  eexists. split; [by vm_compute|].
  apply (confidence_at_most_100 (lib := Examples.lib) Examples.close_dob 70
           30 true 70).
  - apply example_scores_in_range.
  - by vm_compute.
Defined.

(** ** The filter of the report *)




(** ** Equal scores, equal dates *)

(** X10. The weights of the four measures add up to 1: when the four
    measures give the same score for two names, the name similarity is
    that score, so a name that every measure scores 100 against itself has
    the name similarity 100 with itself. A date of birth that parses has
    the difference 0 from itself. *)
Theorem equal_scores_and_dates {lib : External} (name1 name2 dob : cell)
    (v t : Z) :
  isna name1 = false → isna name2 = false →
  fuzz_ratio (upper (strip (str name1))) (upper (strip (str name2))) = v →
  fuzz_partial_ratio (upper (strip (str name1))) (upper (strip (str name2)))
    = v →
  fuzz_token_sort_ratio (upper (strip (str name1)))
    (upper (strip (str name2))) = v →
  fuzz_token_set_ratio (upper (strip (str name1)))
    (upper (strip (str name2))) = v →
  isna dob = false → to_datetime (str dob) = Some t →
  (calculate_name_similarity name1 name2 == inject_Z v)%Q
  ∧ calculate_dob_difference dob dob = 0.
Proof.
  intros Hn1 Hn2 Hr Hp Hs Ht Hd Hparse. split.
  - unfold calculate_name_similarity. rewrite Hn1, Hn2. cbn.
    rewrite Hr, Hp, Hs, Ht. ring.
  - unfold calculate_dob_difference. rewrite Hd, Hparse. cbn.
    by rewrite Z.sub_diag.
Qed.

Lemma equal_scores_and_dates_witness :
  (calculate_name_similarity (lib := Examples.lib) (Str "Ravi Kumar")
     (Str " RAVI KUMAR") == inject_Z 100)%Q
  ∧ calculate_dob_difference (lib := Examples.lib) (Str "1990-05-17")
      (Str "1990-05-17") = 0.
Proof.
  apply (equal_scores_and_dates (lib := Examples.lib) (Str "Ravi Kumar")
           (Str " RAVI KUMAR") (Str "1990-05-17") 100 642902400000000000);
    reflexivity.
Defined.

(** ** Monotonicity in the tolerance and in the address comparison *)

(** X11. On a table with the four required columns, raising the
    date-of-birth tolerance or enabling address comparison never removes a
    pair: every pair of positions that is flagged with the smaller
    tolerance and with address comparison disabled or enabled is flagged
    with the larger tolerance and address comparison enabled, and with
    the larger tolerance alone. *)
Theorem tolerance_and_address_monotone {lib : External} (df : table)
    (name_threshold dob_tolerance_days dob_tolerance_days' : Z)
    (check_addr : bool) (addr_threshold : Z) :
  well_formed df → dob_tolerance_days ≤ dob_tolerance_days' →
  ∃ ds ds_tolerance ds_address,
    (detect_duplicates df name_threshold dob_tolerance_days check_addr
       addr_threshold).2 = Ok ds
    ∧ (detect_duplicates df name_threshold dob_tolerance_days' check_addr
         addr_threshold).2 = Ok ds_tolerance
    ∧ (detect_duplicates df name_threshold dob_tolerance_days' true
         addr_threshold).2 = Ok ds_address
    ∧ ∀ d, d ∈ ds →
        (∃ d', d' ∈ ds_tolerance ∧ positions d' = positions d)
        ∧ (∃ d', d' ∈ ds_address ∧ positions d' = positions d).
Proof.
  intros Hwf Htol.
  destruct (detect_duplicates_well_formed df name_threshold
              dob_tolerance_days check_addr addr_threshold Hwf) as [c1 ->].
  destruct (detect_duplicates_well_formed df name_threshold
              dob_tolerance_days' check_addr addr_threshold Hwf) as [c2 ->].
  destruct (detect_duplicates_well_formed df name_threshold
              dob_tolerance_days' true addr_threshold Hwf) as [c3 ->].
  eexists _, _, _. split_and!; [done..|]. cbn.
  intros d (i & j & r1 & r2 & Hij & Hi & Hj & Hd)%elem_of_entries.
  pose proof Hd as (_ & Hpos & _)%entry_inv.
  assert (Hsome : is_Some (entry name_threshold dob_tolerance_days
                             check_addr addr_threshold i j r1 r2)) by eauto.
  apply entry_is_Some in Hsome as [Hgate Hrule].
  assert (H1 : is_Some (entry name_threshold dob_tolerance_days' check_addr
                          addr_threshold i j r1 r2)).
  { apply entry_is_Some. split; [done|].
    destruct Hrule as [?|[?|?]]; [by left|right; left; lia|by right; right]. }
  assert (H2 : is_Some (entry name_threshold dob_tolerance_days' true
                          addr_threshold i j r1 r2)).
  { apply entry_is_Some. split; [done|].
    destruct Hrule as [?|[?|[Hc ?]]]; [by left|right; left; lia|].
    right; right. by rewrite Hc in *. }
  destruct H1 as [d1 Hd1], H2 as [d2 Hd2]. split.
  - exists d1. split; [apply elem_of_entries; by exists i, j, r1, r2|].
    apply entry_inv in Hd1 as (_ & ? & _). congruence.
  - exists d2. split; [apply elem_of_entries; by exists i, j, r1, r2|].
    apply entry_inv in Hd2 as (_ & ? & _). congruence.
Qed.

Lemma tolerance_and_address_monotone_witness :
  ∃ ds ds_tolerance ds_address,
    (detect_duplicates (lib := Examples.lib) Examples.close_dob 70 1 false
       70).2 = Ok ds
    ∧ (detect_duplicates (lib := Examples.lib) Examples.close_dob 70 30
         false 70).2 = Ok ds_tolerance
    ∧ (detect_duplicates (lib := Examples.lib) Examples.close_dob 70 30 true
         70).2 = Ok ds_address
    ∧ ∀ d, d ∈ ds →
        (∃ d', d' ∈ ds_tolerance ∧ positions d' = positions d)
        ∧ (∃ d', d' ∈ ds_address ∧ positions d' = positions d).
Proof.
  apply (tolerance_and_address_monotone (lib := Examples.lib)
           Examples.close_dob 70 1 30 false 70).
  - apply example_well_formed_two.
  - lia.
Defined.

(** * The generator of duplicates *)

(** ** [create_typo] *)

Lemma length_list_ascii_of_string (s : string) :
  length (list_ascii_of_string s) = String.length s.
Proof. induction s as [|a s IH]; cbn; [done|]. by rewrite IH. Qed.

Lemma length_string_of_list_ascii (l : list ascii) :
  String.length (string_of_list_ascii l) = length l.
Proof. induction l as [|a l IH]; cbn; [done|]. by rewrite IH. Qed.

Lemma get_list_ascii_of_string (s : string) (n : nat) :
  String.get n s = list_ascii_of_string s !! n.
Proof.
  revert n. induction s as [|a s IH]; intros [|n]; cbn; by try apply IH.
Qed.

Lemma get_string_of_list_ascii (l : list ascii) (n : nat) :
  String.get n (string_of_list_ascii l) = l !! n.
Proof.
  by rewrite get_list_ascii_of_string, list_ascii_of_string_of_list_ascii.
Qed.

Section Typo.
Variable rnd : draws.
Hypothesis randint_ok : randint_in_range rnd.
Variable text : string.
Hypothesis long : (3 ≤ String.length text)%nat.

Local Abbreviation text_list := (list_ascii_of_string text).
Local Abbreviation pos := (randint rnd 1 (length text_list - 2)).

(** The position of the typo is neither the first nor the last one. *)
Lemma typo_position : (1 ≤ pos)%nat ∧ (pos + 1 < length text_list)%nat.
Proof.
  pose proof (length_list_ascii_of_string text) as Hlen.
  destruct (randint_ok 1%nat (length text_list - 2)%nat); lia.
Qed.

Lemma typo_items :
  ∃ a b, text_list !! pos = Some a ∧ text_list !! (pos + 1)%nat = Some b.
Proof.
  destruct typo_position as [_ Hpos].
  destruct (lookup_lt_is_Some_2 text_list pos) as [a Ha]; [lia|].
  destruct (lookup_lt_is_Some_2 text_list (pos + 1)) as [b Hb]; [lia|].
  eauto.
Qed.

Lemma create_typo_long (typo_type : string) :
  create_typo rnd text typo_type =
  if String.eqb typo_type "char" then
    Returns (string_of_list_ascii (<[pos := ascii_letter rnd]> text_list))
  else if String.eqb typo_type "swap" then
    Returns (string_of_list_ascii
               (<[(pos + 1)%nat := default (ascii_letter rnd)
                                     (text_list !! pos)]>
                  (<[pos := default (ascii_letter rnd)
                              (text_list !! (pos + 1)%nat)]> text_list)))
  else if String.eqb typo_type "missing" then
    Returns (string_of_list_ascii (delete pos text_list))
  else if String.eqb typo_type "extra" then
    Returns (string_of_list_ascii
               (take pos text_list
                ++ default (ascii_letter rnd) (text_list !! pos)
                   :: drop pos text_list))
  else Returns text.
Proof.
  unfold create_typo. destruct typo_items as (a & b & Ha & Hb).
  assert (Hlong : (String.length text <? 3)%nat = false)
    by (apply Nat.ltb_ge; lia).
  rewrite Hlong. unfold item. cbn zeta. rewrite Ha, Hb. cbn.
  by repeat case_match.
Qed.

End Typo.

(** [create_typo] returns a text of fewer than 3 characters as it is,
    and every text as it is when the kind of typo is none of the four. *)
Lemma create_typo_unchanged (rnd : draws) (text typo_type : string) :
  (String.length text < 3)%nat
  ∨ typo_type ∉ ["char"; "swap"; "missing"; "extra"] →
  create_typo rnd text typo_type = Returns text.
Proof.
  intros Hcase. unfold create_typo.
  destruct (String.length text <? 3)%nat eqn:Hlen; [done|].
  destruct Hcase as [Hshort|Hty]; [apply Nat.ltb_ge in Hlen; lia|].
  repeat (case_match;
          [exfalso; apply Hty;
           match goal with
           | H : String.eqb _ _ = true |- _ => apply String.eqb_eq in H as ->
           end; repeat constructor|]);
    try done.
Qed.

(** X13. When [random.randint] returns a number from its range,
    [create_typo] on a text of at least 3 characters does not raise; the
    text that it returns starts with the same character; it has the same
    length for the kinds "char" and "swap", one character less for
    "missing" and one more for "extra"; and for "swap" it consists of the
    same characters in another order. *)
Theorem create_typo_result (rnd : draws) (text typo_type : string) :
  randint_in_range rnd → (3 ≤ String.length text)%nat →
  ∃ text',
    create_typo rnd text typo_type = Returns text'
    ∧ String.get 0 text' = String.get 0 text
    ∧ (typo_type = "char" ∨ typo_type = "swap" →
       String.length text' = String.length text)
    ∧ (typo_type = "missing" →
       S (String.length text') = String.length text)
    ∧ (typo_type = "extra" → String.length text' = S (String.length text))
    ∧ (typo_type = "swap" →
       list_ascii_of_string text' ≡ₚ list_ascii_of_string text).
Proof.
  intros Hrnd Hlong.
  destruct (typo_position rnd Hrnd text Hlong) as [Hpos1 Hpos2].
  destruct (typo_items rnd Hrnd text Hlong) as (a & b & Ha & Hb).
  pose proof (length_list_ascii_of_string text) as Hlen.
  rewrite (create_typo_long rnd Hrnd text Hlong). rewrite Ha, Hb. cbn.
  set (l := list_ascii_of_string text) in *.
  set (p := randint rnd 1 (length l - 2)) in *.
  rewrite (get_list_ascii_of_string text 0). fold l.
  destruct (String.eqb typo_type "char") eqn:Hchar.
  { apply String.eqb_eq in Hchar as ->. eexists. split; [done|].
    rewrite get_string_of_list_ascii, length_string_of_list_ascii,
      length_insert, list_lookup_insert_ne by lia.
    split_and!; [done|intros _; lia|done..]. }
  destruct (String.eqb typo_type "swap") eqn:Hswap.
  { apply String.eqb_eq in Hswap as ->. eexists. split; [done|].
    rewrite get_string_of_list_ascii, length_string_of_list_ascii,
      !length_insert, !list_lookup_insert_ne by lia.
    rewrite list_ascii_of_string_of_list_ascii.
    split_and!; [done|intros _; lia|done|done|].
    intros _. by apply Permutation_insert_swap. }
  destruct (String.eqb typo_type "missing") eqn:Hmissing.
  { apply String.eqb_eq in Hmissing as ->. eexists. split; [done|].
    rewrite get_string_of_list_ascii, length_string_of_list_ascii,
      length_delete, list_lookup_delete_lt by (eauto || lia).
    split_and!; [done|by intros [|]|intros _; lia|done|done]. }
  destruct (String.eqb typo_type "extra") eqn:Hextra.
  { apply String.eqb_eq in Hextra as ->. eexists. split; [done|].
    rewrite get_string_of_list_ascii, length_string_of_list_ascii,
      length_app, length_take_le by lia. cbn [length].
    rewrite length_drop, lookup_app_l by (rewrite length_take_le; lia).
    rewrite lookup_take_lt by lia.
    split_and!; [done|by intros [|]|done|intros _; lia|done]. }
  exists text. rewrite (get_list_ascii_of_string text 0).
  apply String.eqb_neq in Hchar, Hswap, Hmissing, Hextra.
  split_and!; done.
Qed.

Lemma create_typo_result_witness :
  ∃ text',
    create_typo (Draws (λ a b, b) "x" "ABC1234567" "Asha Rao" 1)
      "Ravi Kumar" "swap" = Returns text'
    ∧ String.get 0 text' = String.get 0 "Ravi Kumar"
    ∧ ("swap" = "char" ∨ "swap" = "swap" →
       String.length text' = String.length "Ravi Kumar")
    ∧ ("swap" = "missing" →
       S (String.length text') = String.length "Ravi Kumar")
    ∧ ("swap" = "extra" →
       String.length text' = S (String.length "Ravi Kumar"))
    ∧ ("swap" = "swap" →
       list_ascii_of_string text' ≡ₚ list_ascii_of_string "Ravi Kumar").
Proof.
  apply create_typo_result.
  - intros a b Hab. cbn. lia.
  - cbn. lia.
Defined.

(** X14. When [random.randint] returns a number from its range and a
    second call draws the same position, the second call undoes the
    first: "swap" undoes "swap" and "missing" undoes "extra". *)
Theorem create_typo_undone (rnd rnd' : draws) (text text' : string)
    (typo_type undo : string) :
  randint_in_range rnd →
  (typo_type, undo) ∈ [("swap", "swap"); ("extra", "missing")] →
  create_typo rnd text typo_type = Returns text' →
  randint rnd' 1 (String.length text' - 2)
  = randint rnd 1 (String.length text - 2) →
  create_typo rnd' text' undo = Returns text.
Proof.
  intros Hrnd Hkind Htypo Hsame.
  destruct (decide (String.length text < 3)%nat) as [Hshort|Hlong].
  { rewrite (create_typo_unchanged rnd text) in Htypo by auto.
    injection Htypo as <-. by apply create_typo_unchanged; left. }
  assert (Hlong' : (3 ≤ String.length text)%nat) by lia.
  destruct (typo_position rnd Hrnd text Hlong') as [Hpos1 Hpos2].
  destruct (typo_items rnd Hrnd text Hlong') as (a & b & Ha & Hb).
  pose proof (length_list_ascii_of_string text) as Hlen.
  rewrite (create_typo_long rnd Hrnd text Hlong') in Htypo.
  rewrite Ha, Hb in Htypo. cbn in Htypo.
  revert Hsame Htypo. rewrite <- (length_list_ascii_of_string text).
  set (l := list_ascii_of_string text) in *.
  set (p := randint rnd 1 (length l - 2)) in *.
  intros Hsame Htypo.
  apply elem_of_cons in Hkind as [[= -> ->]|Hkind];
    [|apply list_elem_of_singleton in Hkind as [= -> ->]];
    cbn in Htypo; injection Htypo as <-; unfold create_typo;
    rewrite length_list_ascii_of_string, Hsame,
      list_ascii_of_string_of_list_ascii, length_string_of_list_ascii.
  - rewrite !length_insert.
    assert (Hlen3 : (length l <? 3)%nat = false) by (apply Nat.ltb_ge; lia).
    rewrite Hlen3. cbn. unfold item.
    rewrite list_lookup_insert_eq by (rewrite length_insert; lia).
    rewrite list_lookup_insert_ne, list_lookup_insert_eq by lia.
    rewrite (list_insert_insert_ne _ p (p + 1)) by lia.
    rewrite !list_insert_insert_eq.
    rewrite (list_insert_id _ p a), (list_insert_id _ (p + 1) b) by done.
    unfold l. by rewrite string_of_list_ascii_of_string.
  - rewrite length_app, length_take_le by lia. cbn [length].
    rewrite length_drop.
    assert (Hlen3 : (p + S (length l - p) <? 3)%nat = false)
      by (apply Nat.ltb_ge; lia).
    rewrite Hlen3. cbn. unfold item.
    assert (Htake : length (take p l) = p) by (apply length_take_le; lia).
    rewrite (list_lookup_middle (take p l) (drop p l) a p) by done.
    pose proof (delete_middle (take p l) (drop p l) a) as Hdel.
    rewrite Htake, take_drop in Hdel. rewrite Hdel.
    unfold l. by rewrite string_of_list_ascii_of_string.
Qed.

Lemma create_typo_undone_witness :
  create_typo (Draws (λ a b, 2%nat) "x" "ABC1234567" "Asha Rao" 1)
    "Ravvi" "missing" = Returns "Ravi".
Proof.
  apply (create_typo_undone
           (Draws (λ a b, b) "x" "ABC1234567" "Asha Rao" 1)
           (Draws (λ a b, 2%nat) "x" "ABC1234567" "Asha Rao" 1)
           "Ravi" "Ravvi" "extra" "missing").
  - intros a b Hab. cbn. lia.
  - right. left.
  - reflexivity.
  - reflexivity.
Defined.

(** ** [create_duplicate_variations] *)

(** Splits a hypothesis [x ∈ [a; b; ...]] into its cases. *)
Ltac elem_of_cases H :=
  repeat (apply elem_of_cons in H as [H|H]);
  [..|by apply elem_of_nil in H].

Ltac variation_cases :=
  repeat lazymatch goal with
    | H : context [match field ?r ?k with _ => _ end] |- _ =>
        unfold field in H; destruct (r !! k) eqn:?
    | H : context [match create_typo ?a ?b ?c with _ => _ end] |- _ =>
        destruct (create_typo a b c) eqn:?
    | H : context [match abbreviate ?l with _ => _ end] |- _ =>
        destruct (abbreviate l) eqn:?
    | H : context [match strptime ?s with _ => _ end] |- _ =>
        destruct (strptime s) eqn:?
    | H : context [match add_days ?a ?b with _ => _ end] |- _ =>
        destruct (add_days a b) eqn:?
    end.

(** X15. A duplicate that [create_duplicate_variations] returns for one of
    the ten duplicate types has the drawn voter id as its [Voter_ID] and
    agrees with the original record on every other key except the one
    column of its type ([Full_Name], [Address], [Father_Mother_Name] or
    [Date_of_Birth]; none for "exact"); for any other duplicate type the
    duplicate is the original record, with the same [Voter_ID]. *)
Theorem duplicate_variation_frame {cal : Calendar} (rnd : draws)
    (voter_record duplicate : gmap string string) (duplicate_type : string) :
  create_duplicate_variations rnd voter_record duplicate_type
  = Returns duplicate →
  (∀ changed,
     (duplicate_type, changed) ∈ duplicate_types →
     duplicate !! "Voter_ID" = Some (voter_id rnd)
     ∧ ∀ key, key ≠ "Voter_ID" → changed ≠ Some key →
              duplicate !! key = voter_record !! key)
  ∧ (duplicate_type ∉ duplicate_types.*1 → duplicate = voter_record).
Proof.
  intros Hdup. split.
  - intros changed Hty. unfold duplicate_types in Hty. elem_of_cases Hty.
    all: injection Hty as -> ->.
    all: unfold create_duplicate_variations in Hdup; cbn in Hdup.
    all: variation_cases; try done.
    all: injection Hdup as <-.
    all: split; [by simplify_map_eq|].
    all: intros key Hkey Hchanged.
    all: rewrite ?lookup_insert_ne by congruence; done.
  - intros Hty. unfold create_duplicate_variations in Hdup.
    repeat (case_match;
            [exfalso; apply Hty;
             match goal with
             | H : String.eqb _ _ = true |- _ =>
                 apply String.eqb_eq in H as ->
             end; cbn; repeat constructor|]).
    by injection Hdup as <-.
Qed.

Lemma duplicate_variation_frame_witness :
  ∃ duplicate,
    create_duplicate_variations (cal := GeneratorExamples.calendar)
      GeneratorExamples.rnd GeneratorExamples.voter "dob_typo"
    = Returns duplicate
    ∧ duplicate !! "Date_of_Birth" = Some "1990-05-18"
    ∧ (∀ changed,
         ("dob_typo", changed) ∈ duplicate_types →
         duplicate !! "Voter_ID" = Some "XYZ7654321"
         ∧ ∀ key, key ≠ "Voter_ID" → changed ≠ Some key →
                  duplicate !! key = GeneratorExamples.voter !! key)
    ∧ ("dob_typo" ∉ duplicate_types.*1 →
       duplicate = GeneratorExamples.voter).
Proof.
  eexists. split; [by vm_compute|]. split; [by vm_compute|].
  apply (duplicate_variation_frame (cal := GeneratorExamples.calendar)
           GeneratorExamples.rnd GeneratorExamples.voter _ "dob_typo").
  by vm_compute.
Defined.

(** X16. [create_duplicate_variations] raises the lookup error of the
    column that its duplicate type reads ([Full_Name], [Address] or
    [Date_of_Birth]) when the record has no such column; for the types
    "exact" and "father_name_diff" and for every type that is not one of
    the ten it returns a duplicate for every record. *)
Theorem duplicate_variation_missing_column {cal : Calendar} (rnd : draws)
    (voter_record : gmap string string) (duplicate_type : string) :
  (∀ column,
     (duplicate_type, Some column) ∈ duplicate_types →
     column ≠ "Father_Mother_Name" → voter_record !! column = None →
     create_duplicate_variations rnd voter_record duplicate_type
     = Fails (GeneratorKeyError column))
  ∧ (duplicate_type ∈ ["exact"; "father_name_diff"]
     ∨ duplicate_type ∉ duplicate_types.*1 →
     ∃ duplicate,
       create_duplicate_variations rnd voter_record duplicate_type
       = Returns duplicate).
Proof.
  split.
  - intros column Hty Hcol Hnone. unfold duplicate_types in Hty.
    elem_of_cases Hty.
    all: try discriminate Hty; injection Hty as -> ->; try done.
    all: unfold create_duplicate_variations, field; cbn.
    all: by rewrite Hnone.
  - intros [Hty|Hty].
    + elem_of_cases Hty; subst duplicate_type; by eexists.
    + unfold create_duplicate_variations.
      repeat (case_match;
              [exfalso; apply Hty;
               match goal with
               | H : String.eqb _ _ = true |- _ =>
                   apply String.eqb_eq in H as ->
               end; cbn; repeat constructor|]).
      by eexists.
Qed.

Lemma duplicate_variation_missing_column_witness :
  create_duplicate_variations (cal := GeneratorExamples.calendar)
    GeneratorExamples.rnd GeneratorExamples.nameless "case_change"
  = Fails (GeneratorKeyError "Full_Name").
Proof.
  apply (duplicate_variation_missing_column
           (cal := GeneratorExamples.calendar) GeneratorExamples.rnd
           GeneratorExamples.nameless "case_change").
  - unfold duplicate_types. do 4 right. left.
  - done.
  - by vm_compute.
Defined.

(** ** Generated duplicates under the normalisation of the detector *)

Lemma upper_lower_ascii (a : ascii) :
  upper_ascii (lower_ascii a) = upper_ascii a.
Proof. by destruct a as [[] [] [] [] [] [] [] []]. Qed.

Lemma is_space_lower_ascii (a : ascii) :
  is_space (lower_ascii a) = is_space a.
Proof. by destruct a as [[] [] [] [] [] [] [] []]. Qed.

Lemma lstrip_lower (s : string) : lstrip (lower s) = lower (lstrip s).
Proof.
  induction s as [|a s IH]; cbn; [done|].
  rewrite is_space_lower_ascii. by destruct (is_space a).
Qed.

Lemma rstrip_lower (s : string) : rstrip (lower s) = lower (rstrip s).
Proof.
  induction s as [|a s IH]; cbn; [done|]. rewrite IH.
  destruct (rstrip s); cbn; [|done].
  rewrite is_space_lower_ascii. by destruct (is_space a).
Qed.

Lemma upper_lower (s : string) : upper (lower s) = upper s.
Proof.
  induction s as [|a s IH]; cbn; [done|].
  by rewrite upper_lower_ascii, IH.
Qed.

(** The detector normalises a name and the name in lower case to the same
    string. *)
Lemma normalise_lower (s : string) :
  upper (strip (lower s)) = upper (strip s).
Proof. unfold strip. by rewrite lstrip_lower, rstrip_lower, upper_lower. Qed.

Lemma calculate_name_similarity_normalised {lib : External}
    (n n' : string) (x : cell) :
  upper (strip n') = upper (strip n) →
  calculate_name_similarity (Str n') x = calculate_name_similarity (Str n) x
  ∧ calculate_name_similarity x (Str n')
    = calculate_name_similarity x (Str n).
Proof.
  intros Heq. unfold calculate_name_similarity. cbn [isna str orb].
  rewrite Heq. done.
Qed.

(** X17. For the duplicate types "exact", "case_change", "address_typo",
    "father_name_diff" and "dob_typo", the name of the generated duplicate
    is, after the normalisation of [calculate_name_similarity], the name
    of the original record: the name similarity of the duplicate's name
    with any cell is that of the original's name, on either side. *)
Theorem generated_name_indistinguishable {cal : Calendar} {lib : External}
    (rnd : draws) (voter_record duplicate : gmap string string)
    (duplicate_type name : string) (x : cell) :
  duplicate_type ∈ ["exact"; "case_change"; "address_typo";
                    "father_name_diff"; "dob_typo"] →
  voter_record !! "Full_Name" = Some name →
  create_duplicate_variations rnd voter_record duplicate_type
  = Returns duplicate →
  ∃ name',
    duplicate !! "Full_Name" = Some name'
    ∧ calculate_name_similarity (Str name') x
      = calculate_name_similarity (Str name) x
    ∧ calculate_name_similarity x (Str name')
      = calculate_name_similarity x (Str name).
Proof.
  intros Hty Hname Hdup. elem_of_cases Hty; subst duplicate_type.
  all: unfold create_duplicate_variations in Hdup; cbn in Hdup.
  all: variation_cases; try done.
  all: injection Hdup as <-.
  2: { exists (lower name). split.
       - simplify_map_eq. done.
       - apply calculate_name_similarity_normalised, normalise_lower. }
  all: exists name; split; [by simplify_map_eq|done].
Qed.

Lemma generated_name_indistinguishable_witness :
  ∃ name',
    <["Full_Name" := "ravi  kumar singh"]>
      (<["Voter_ID" := "XYZ7654321"]> GeneratorExamples.voter)
    !! "Full_Name" = Some name'
    ∧ calculate_name_similarity (lib := Examples.lib) (Str name')
        (Str "Ravi  Kumar Singh")
      = calculate_name_similarity (lib := Examples.lib)
          (Str "Ravi  Kumar Singh") (Str "Ravi  Kumar Singh")
    ∧ calculate_name_similarity (lib := Examples.lib)
        (Str "Ravi  Kumar Singh") (Str name')
      = calculate_name_similarity (lib := Examples.lib)
          (Str "Ravi  Kumar Singh") (Str "Ravi  Kumar Singh").
Proof.
  apply (generated_name_indistinguishable
           (cal := GeneratorExamples.calendar) (lib := Examples.lib)
           GeneratorExamples.rnd GeneratorExamples.voter _ "case_change").
  - right. left.
  - by vm_compute.
  - by vm_compute.
Defined.

(** ** The words of a generated name *)

Lemma split_word_app (w s : string) :
  is_word w = true → starts_word s = false →
  split (w +:+ s) = w :: split s.
Proof.
  unfold is_word. induction w as [|a w IH]; [done|].
  cbn [starts_word no_space].
  intros [Ha Hw]%andb_prop Hs. apply andb_prop in Hw as [_ Hw].
  apply negb_true_iff in Ha.
  change (String a w +:+ s) with (String a (w +:+ s)).
  cbn [split]. rewrite Ha.
  destruct w as [|b w].
  - change (EmptyString +:+ s) with s. by rewrite Hs.
  - cbn [no_space] in Hw. apply andb_prop in Hw as [Hb Hw].
    cbn [starts_word no_space] in IH. rewrite Hb, Hw in IH.
    rewrite (IH eq_refl Hs).
    change (String b w +:+ s) with (String b (w +:+ s)).
    cbn [starts_word]. by rewrite Hb.
Qed.

Lemma split_word (w : string) : is_word w = true → split w = [w].
Proof.
  intros Hw. pose proof (split_word_app w EmptyString Hw eq_refl) as Hsplit.
  assert (Hnil : w +:+ EmptyString = w).
  { clear. induction w as [|a w IH]; [done|].
    change (String a w +:+ EmptyString) with (String a (w +:+ EmptyString)).
    by rewrite IH. }
  by rewrite Hnil in Hsplit.
Qed.

Lemma split_words (s : string) : Forall (λ w, is_word w = true) (split s).
Proof.
  induction s as [|a s IH]; cbn [split]; [constructor|].
  destruct (is_space a) eqn:Ha; [done|].
  destruct (starts_word s) eqn:Hs.
  - destruct (split s) as [|w ws].
    + repeat constructor. unfold is_word. cbn [starts_word no_space].
      by rewrite Ha.
    + apply Forall_cons in IH as [Hw Hws]. constructor; [|done].
      unfold is_word in *. cbn [starts_word no_space]. rewrite Ha.
      by apply andb_prop in Hw as [_ ->].
  - constructor; [|done]. unfold is_word. cbn [starts_word no_space].
    by rewrite Ha.
Qed.

Lemma split_join (sep : string) (ws : list string) :
  sep ∈ [" "; "  "] → Forall (λ w, is_word w = true) ws →
  split (join sep ws) = ws.
Proof.
  intros Hsep. induction 1 as [|w ws Hw Hws IH]; [done|].
  destruct ws as [|w' ws]; [by apply split_word|].
  cbn [join]. rewrite split_word_app; [|done|].
  - f_equal. rewrite <- IH. elem_of_cases Hsep; by subst sep.
  - elem_of_cases Hsep; by subst sep.
Qed.

(** X18. For a record that has a [Full_Name], the duplicate types
    "extra_space" and "abbreviated" return a duplicate. The name of the
    "extra_space" duplicate is the words of the original name joined by
    two spaces and has the same words. The name of the "abbreviated"
    duplicate has as many words as the original; when there are two or
    more, its first word is the first character of the original first
    word followed by a full stop, and the other words are the same; when
    there is at most one word, its words are those of the original. *)
Theorem generated_name_words {cal : Calendar} (rnd : draws)
    (voter_record : gmap string string) (duplicate_type name : string) :
  voter_record !! "Full_Name" = Some name →
  duplicate_type ∈ ["extra_space"; "abbreviated"] →
  ∃ duplicate name',
    create_duplicate_variations rnd voter_record duplicate_type
    = Returns duplicate
    ∧ duplicate !! "Full_Name" = Some name'
    ∧ (duplicate_type = "extra_space" →
       name' = join "  " (split name) ∧ split name' = split name)
    ∧ (duplicate_type = "abbreviated" →
       match split name with
       | first :: second :: rest =>
           ∃ a, String.get 0 first = Some a
                ∧ split name' = String a "." :: second :: rest
       | _ => split name' = split name
       end).
Proof.
  intros Hname Hty. pose proof (split_words name) as Hwords.
  elem_of_cases Hty; subst duplicate_type.
  - unfold create_duplicate_variations, field. cbn. rewrite Hname.
    eexists _, _. split; [done|]. split; [by simplify_map_eq|].
    split; [|done]. intros _. split; [done|].
    apply split_join; [by right; left|done].
  - unfold create_duplicate_variations, field. cbn. rewrite Hname.
    destruct (split name) as [|first [|second rest]] eqn:Hsplit; cbn.
    + eexists _, _. split; [done|]. split; [by simplify_map_eq|].
      split; [done|]. intros _. done.
    + eexists _, _. split; [done|]. split; [by simplify_map_eq|].
      split; [done|]. intros _. apply split_word.
      by apply Forall_cons in Hwords as [Hfirst _].
    + apply Forall_cons in Hwords as [Hfirst Hrest].
      destruct first as [|a first]; [done|]. cbn.
      eexists _, _. split; [done|]. split; [by simplify_map_eq|].
      split; [done|]. intros _. exists a. split; [done|].
      apply (split_join " " (String a "." :: second :: rest)); [by left|].
      constructor; [|done]. unfold is_word in *. cbn in *.
      apply andb_prop in Hfirst as [Ha _]. by rewrite Ha.
Qed.

Lemma generated_name_words_witness :
  ∃ duplicate name',
    create_duplicate_variations (cal := GeneratorExamples.calendar)
      GeneratorExamples.rnd GeneratorExamples.voter "abbreviated"
    = Returns duplicate
    ∧ duplicate !! "Full_Name" = Some name'
    ∧ ("abbreviated" = "extra_space" →
       name' = join "  " (split "Ravi  Kumar Singh")
       ∧ split name' = split "Ravi  Kumar Singh")
    ∧ ("abbreviated" = "abbreviated" →
       match split "Ravi  Kumar Singh" with
       | first :: second :: rest =>
           ∃ a, String.get 0 first = Some a
                ∧ split name' = String a "." :: second :: rest
       | _ => split name' = split "Ravi  Kumar Singh"
       end).
Proof.
  apply (generated_name_words (cal := GeneratorExamples.calendar)
           GeneratorExamples.rnd GeneratorExamples.voter "abbreviated"
           "Ravi  Kumar Singh").
  - by vm_compute.
  - right. left.
Defined.

(** ** Phonetic duplicates *)

Lemma upper_ascii_idemp (a : ascii) :
  upper_ascii (upper_ascii a) = upper_ascii a.
Proof. by destruct a as [[] [] [] [] [] [] [] []]. Qed.

Lemma is_space_upper_ascii (a : ascii) :
  is_space (upper_ascii a) = is_space a.
Proof. by destruct a as [[] [] [] [] [] [] [] []]. Qed.

Lemma is_space_same_upper (a b : ascii) :
  upper_ascii a = upper_ascii b → is_space a = is_space b.
Proof.
  intros Heq. by rewrite <- (is_space_upper_ascii a), Heq, is_space_upper_ascii.
Qed.

Lemma lstrip_same_upper (s t : string) :
  upper s = upper t → upper (lstrip s) = upper (lstrip t).
Proof.
  revert t. induction s as [|a s IH]; intros [|b t] Heq; try done.
  cbn [upper] in Heq. injection Heq as Hab Hst. cbn [lstrip].
  rewrite (is_space_same_upper a b Hab).
  destruct (is_space b); [by apply IH|]. cbn [upper]. by rewrite Hab, Hst.
Qed.

Lemma rstrip_same_upper (s t : string) :
  upper s = upper t → upper (rstrip s) = upper (rstrip t).
Proof.
  revert t. induction s as [|a s IH]; intros [|b t] Heq; try done.
  cbn [upper] in Heq. injection Heq as Hab Hst. cbn [rstrip].
  specialize (IH t Hst). rewrite (is_space_same_upper a b Hab).
  destruct (rstrip s), (rstrip t); try done.
  - destruct (is_space b); [done|]. cbn [upper]. by rewrite Hab.
  - cbn [upper] in *. by rewrite Hab, IH.
Qed.

(** Two names that differ only in the case of their letters are the same
    name for the detector. *)
Lemma normalise_same_upper (s t : string) :
  upper s = upper t → upper (strip s) = upper (strip t).
Proof.
  intros Heq. unfold strip. by apply rstrip_same_upper, lstrip_same_upper.
Qed.

Lemma upper_title_from (previous_is_cased : bool) (s : string) :
  upper (title_from previous_is_cased s) = upper s.
Proof.
  revert previous_is_cased. induction s as [|a s IH]; intros p; [done|].
  cbn [title_from]. destruct (is_cased a); cbn [upper]; rewrite IH; [|done].
  destruct p; by rewrite ?upper_lower_ascii, ?upper_ascii_idemp.
Qed.

Lemma replace_phonetic_absent (items : list (string * string))
    (name : string) :
  (∀ old, old ∈ items.*1 → contains old name = false) →
  replace_phonetic items name = name.
Proof.
  induction items as [|[old new] items IH]; intros Habsent; [done|].
  cbn [replace_phonetic]. rewrite (Habsent old); [|by left].
  apply IH. intros old' Hold. apply Habsent. by right.
Qed.

Lemma length_lower (s : string) : String.length (lower s) = String.length s.
Proof. induction s as [|a s IH]; cbn; by rewrite ?IH. Qed.

Lemma length_title_from (previous_is_cased : bool) (s : string) :
  String.length (title_from previous_is_cased s) = String.length s.
Proof.
  revert previous_is_cased. induction s as [|a s IH]; intros p; [done|].
  cbn [title_from]. destruct (is_cased a); cbn [String.length]; by rewrite IH.
Qed.

Lemma length_append (s t : string) :
  String.length (s +:+ t) = (String.length s + String.length t)%nat.
Proof.
  induction s as [|a s IH]; [done|].
  change (String a s +:+ t) with (String a (s +:+ t)).
  cbn [String.length]. by rewrite IH.
Qed.

Lemma length_substring (n m : nat) (s : string) :
  (n + m ≤ String.length s)%nat →
  String.length (String.substring n m s) = m.
Proof.
  revert n m. induction s as [|a s IH]; intros n m Hle.
  - cbn [String.length] in Hle. by destruct n, m; try lia.
  - cbn [String.length] in Hle. destruct n as [|n]; cbn [String.substring].
    + destruct m as [|m]; [done|]. cbn [String.length].
      rewrite IH; [done|lia].
    + apply IH. lia.
Qed.

Lemma prefix_length (old s : string) :
  String.prefix old s = true → (String.length old ≤ String.length s)%nat.
Proof.
  revert s. induction old as [|a old IH]; intros s Hprefix.
  - cbn [String.length]. lia.
  - destruct s as [|b s]; [done|]. cbn [String.prefix] in Hprefix.
    destruct (ascii_dec a b); [|done]. cbn [String.length].
    apply IH in Hprefix. lia.
Qed.

(** A replacement of the first occurrence changes the length by the
    difference of the lengths of the two patterns. *)
Lemma length_replace_first (old new s : string) :
  contains old s = true →
  (String.length (replace_first old new s) + String.length old
   = String.length s + String.length new)%nat.
Proof.
  induction s as [|a s IH]; intros Hin.
  - cbn [contains] in Hin. rewrite orb_false_r in Hin.
    cbn [replace_first]. rewrite Hin.
    pose proof (prefix_length _ _ Hin) as Hle.
    rewrite length_append, length_substring; lia.
  - cbn [contains] in Hin. cbn [replace_first].
    destruct (String.prefix old (String a s)) eqn:Hprefix.
    + pose proof (prefix_length _ _ Hprefix) as Hle.
      rewrite length_append, length_substring; lia.
    + cbn [orb] in Hin. cbn [String.length]. specialize (IH Hin). lia.
Qed.

Lemma length_replace_phonetic (name : string) :
  (String.length (replace_phonetic replacements name) ≤ String.length name
   ≤ S (String.length (replace_phonetic replacements name)))%nat.
Proof.
  unfold replacements. cbn [replace_phonetic].
  destruct (contains "ph" name) eqn:Hph.
  { pose proof (length_replace_first "ph" "f" name Hph) as Hlen.
    cbn [String.length] in Hlen. lia. }
  destruct (contains "k" name) eqn:Hk.
  { pose proof (length_replace_first "k" "c" name Hk) as Hlen.
    cbn [String.length] in Hlen. lia. }
  destruct (contains "sh" name) eqn:Hsh.
  { pose proof (length_replace_first "sh" "s" name Hsh) as Hlen.
    cbn [String.length] in Hlen. lia. }
  destruct (contains "v" name) eqn:Hv.
  { pose proof (length_replace_first "v" "w" name Hv) as Hlen.
    cbn [String.length] in Hlen. lia. }
  lia.
Qed.

(** X19. For a record that has a [Full_Name], the duplicate type
    "phonetic" returns a duplicate whose name is at most as long as the
    original name and at most one character shorter. When the name in
    lower case contains none of the patterns "ph", "k", "sh" and "v", the
    duplicate's name is the original name in title case, and its name
    similarity with any cell is that of the original name, on either
    side. *)
Theorem phonetic_duplicate {cal : Calendar} {lib : External} (rnd : draws)
    (voter_record : gmap string string) (name : string) (x : cell) :
  voter_record !! "Full_Name" = Some name →
  ∃ duplicate name',
    create_duplicate_variations rnd voter_record "phonetic"
    = Returns duplicate
    ∧ duplicate !! "Full_Name" = Some name'
    ∧ (String.length name' ≤ String.length name
       ≤ S (String.length name'))%nat
    ∧ ((∀ old, old ∈ replacements.*1 → contains old (lower name) = false) →
       name' = title (lower name)
       ∧ calculate_name_similarity (Str name') x
         = calculate_name_similarity (Str name) x
       ∧ calculate_name_similarity x (Str name')
         = calculate_name_similarity x (Str name)).
Proof.
  intros Hname.
  exists (<["Full_Name" :=
              title (replace_phonetic replacements (lower name))]>
            (<["Voter_ID" := voter_id rnd]> voter_record)).
  exists (title (replace_phonetic replacements (lower name))).
  split; [|split; [by simplify_map_eq|split]].
  - unfold create_duplicate_variations, field.
    cbn [String.eqb Ascii.eqb Bool.eqb]. by rewrite Hname.
  - unfold title. rewrite length_title_from.
    pose proof (length_replace_phonetic (lower name)) as Hlen.
    by rewrite length_lower in Hlen.
  - intros Habsent. rewrite (replace_phonetic_absent _ _ Habsent).
    split; [done|]. apply calculate_name_similarity_normalised.
    apply normalise_same_upper. unfold title.
    by rewrite upper_title_from, upper_lower.
Qed.

Lemma phonetic_duplicate_witness :
  ∃ duplicate name',
    create_duplicate_variations (cal := GeneratorExamples.calendar)
      GeneratorExamples.rnd
      (<["Full_Name" := "Anil Gupta"]> GeneratorExamples.voter) "phonetic"
    = Returns duplicate
    ∧ duplicate !! "Full_Name" = Some name'
    ∧ (String.length name' ≤ String.length "Anil Gupta"
       ≤ S (String.length name'))%nat
    ∧ ((∀ old, old ∈ replacements.*1 →
               contains old (lower "Anil Gupta") = false) →
       name' = title (lower "Anil Gupta")
       ∧ calculate_name_similarity (lib := Examples.lib) (Str name')
           (Str "Anil Gupta")
         = calculate_name_similarity (lib := Examples.lib)
             (Str "Anil Gupta") (Str "Anil Gupta")
       ∧ calculate_name_similarity (lib := Examples.lib)
           (Str "Anil Gupta") (Str name')
         = calculate_name_similarity (lib := Examples.lib)
             (Str "Anil Gupta") (Str "Anil Gupta")).
Proof.
  apply (phonetic_duplicate (cal := GeneratorExamples.calendar)
           (lib := Examples.lib) GeneratorExamples.rnd
           (<["Full_Name" := "Anil Gupta"]> GeneratorExamples.voter)
           "Anil Gupta" (Str "Anil Gupta")).
  by vm_compute.
Defined.
